(** * deeppresenter/tools/richfile.py: the four document-authoring tools

    A shallow embedding of [download_file], [markdown_table_to_image],
    [inspect_slide] and [inspect_manuscript], and the properties of the
    specification that can be stated about them.

    Conventions of the embedding.
    - A Python [str] is a Rocq [string]; its characters are the code points
      below 256.  The same type stands for [bytes] (file contents).
    - A Python exception is a value of [exn]; a call that may raise returns
      an [outcome].  [exn] stands for the instances of Python's [Exception]
      class, the ones library calls raise.
    - What the tools do to the outside (file system, network, renderers) is
      explicit: the file system is a finite map from paths to nodes, the
      external calls are recorded in a trace, and the behaviour of the
      third-party libraries is given by a record [Env] of oracles.
    - A path is the string the tool holds.  The map says what the system
      answers for it: a directory, a file, nothing, or an error that
      [Path.exists] and [open] raise.  Each path is followed under the
      spelling the tool uses; nothing is stated about other spellings of
      the same file. *)

From Stdlib Require Import ZArith Ascii String List Lia DecimalString DecimalPos.
From stdpp Require Import base option gmap strings list.

Local Open Scope Z_scope.

(** ** Python strings *)

Module PyStr.

Definition newline : ascii := "010"%char.

(** [str.isspace] on one character, for the code points below 256:
    U+0009..U+000D, U+001C..U+001F, U+0020, U+0085, U+00A0. *)
Definition isspace (c : ascii) : bool :=
  let n := N_of_ascii c in
  ((9 <=? n) && (n <=? 13) || (28 <=? n) && (n <=? 32)
   || (n =? 133) || (n =? 160))%N.

(** [str.lower] on one character: A..Z, and U+00C0..U+00DE but U+00D7. *)
Definition lower_char (c : ascii) : ascii :=
  let n := N_of_ascii c in
  if ((65 <=? n) && (n <=? 90)
      || (192 <=? n) && (n <=? 222) && negb (n =? 215))%N
  then ascii_of_N (n + 32) else c.

Fixpoint lower (s : string) : string :=
  match s with
  | EmptyString => EmptyString
  | String c s' => String (lower_char c) (lower s')
  end.

Fixpoint rev_onto (s acc : string) : string :=
  match s with
  | EmptyString => acc
  | String c s' => rev_onto s' (String c acc)
  end.

Definition rev (s : string) : string := rev_onto s EmptyString.

Fixpoint len (s : string) : nat :=
  match s with
  | EmptyString => O
  | String _ s' => S (len s')
  end.

(** [s[:n]] and [s[n:]] for [n >= 0]. *)
Fixpoint take (n : nat) (s : string) : string :=
  match n, s with
  | S n', String c s' => String c (take n' s')
  | _, _ => EmptyString
  end.

Fixpoint drop (n : nat) (s : string) : string :=
  match n, s with
  | S n', String _ s' => drop n' s'
  | _, _ => s
  end.

(** [s.startswith(p)] *)
Fixpoint startswith (s p : string) {struct p} : bool :=
  match p with
  | EmptyString => true
  | String a p' =>
      match s with
      | EmptyString => false
      | String b s' => Ascii.eqb a b && startswith s' p'
      end
  end.

(** [s.endswith(p)] *)
Definition endswith (s p : string) : bool := startswith (rev s) (rev p).

(** [s.endswith((p1, ..., pn))] *)
Definition endswith_any (s : string) (ps : list string) : bool :=
  existsb (endswith s) ps.

(** [s.strip()]: leading and trailing whitespace removed. *)
Fixpoint lstrip (s : string) : string :=
  match s with
  | EmptyString => EmptyString
  | String c s' => if isspace c then lstrip s' else s
  end.

Definition rstrip (s : string) : string := rev (lstrip (rev s)).

Definition strip (s : string) : string := rstrip (lstrip s).

(** Truth value of a [str]: non-empty. *)
Definition truthy (s : string) : bool :=
  match s with EmptyString => false | String _ _ => true end.

(** [s.split(sep)] for a non-empty [sep]: the text is cut at every
    occurrence of [sep] found scanning from the left, an occurrence
    starting only after the end of the previous one.  [skip] counts the
    characters of the occurrence just found that are still to be passed
    over, [cur] holds the current segment, reversed. *)
Fixpoint split_go (sep : string) (skip : nat) (cur : string) (s : string)
  : list string :=
  match s with
  | EmptyString => [rev cur]
  | String c s' =>
      match skip with
      | S k => split_go sep k cur s'
      | O =>
          if startswith s sep
          then rev cur :: split_go sep (len sep - 1) EmptyString s'
          else split_go sep O (String c cur) s'
      end
  end.

Definition split (s sep : string) : list string :=
  split_go sep O EmptyString s.

(** [sep.join(l)] *)
Fixpoint join (sep : string) (l : list string) : string :=
  match l with
  | [] => EmptyString
  | [x] => x
  | x :: l' => x +:+ sep +:+ join sep l'
  end.

(** [s.count(sub)]: the number of non-overlapping occurrences of [sub],
    scanning from the left; [len(s) + 1] for the empty [sub]. *)
Fixpoint count_go (sub : string) (skip : nat) (s : string) : nat :=
  match s with
  | EmptyString => O
  | String _ s' =>
      match skip with
      | S k => count_go sub k s'
      | O =>
          if startswith s sub
          then S (count_go sub (len sub - 1) s')
          else count_go sub O s'
      end
  end.

Definition count (s sub : string) : nat :=
  match sub with
  | EmptyString => S (len s)
  | String _ _ => count_go sub O s
  end.

(** [str(n)] for an [int], and the format specification [02d]: the
    decimal digits, zero-filled after the sign up to a width of two. *)
Definition of_int (z : Z) : string := NilZero.string_of_int (Z.to_int z).

Definition of_nat (n : nat) : string := of_int (Z.of_nat n).

Fixpoint zeros (n : nat) : string :=
  match n with
  | O => EmptyString
  | S n' => String "0"%char (zeros n')
  end.

Definition format_0d (width : nat) (z : Z) : string :=
  let digits := of_int (Z.abs z) in
  let sign := if z <? 0 then "-" else "" in
  sign +:+ zeros (width - len sign - len digits) +:+ digits.

Definition format_02d : Z -> string := format_0d 2.

End PyStr.

(** ** Regular expressions: the fragment of [re] the tools use

    A backtracking matcher with the priorities of Python's [re]: the
    alternatives of a pattern are tried in order and the first complete match
    wins.  [.] matches any character but a newline, [r?] tries [r] before
    skipping it (greedy), [.*?] tries to go on with the rest of the pattern
    before taking one more character (lazy). *)

Module Re.
Import PyStr.

Inductive atom :=
| Chr (c : ascii)     (* a literal character, escaped or not *)
| Dot.                (* [.] *)

Inductive regex :=
| Atom (a : atom)
| Cat (r1 r2 : regex)
| Opt (r : regex)          (* [r?] *)
| StarLazy (a : atom)      (* [a*?] *)
| Group (r : regex).       (* [(r)] *)

Definition atom_matches (a : atom) (c : ascii) : bool :=
  match a with
  | Chr c' => Ascii.eqb c' c
  | Dot => negb (Ascii.eqb c newline)
  end.

(** The literal string [s] followed by [r]. *)
Fixpoint lit (s : string) (r : regex) : regex :=
  match s with
  | EmptyString => r
  | String c s' => Cat (Atom (Chr c)) (lit s' r)
  end.

(** [re_match r s caps k]: match [r] at the start of [s]; on each way of
    matching, in priority order, hand the rest of the text and the groups
    captured so far to the continuation [k], until it accepts. *)
Fixpoint re_match {T : Type} (r : regex) (s : string) (caps : list string)
    (k : string -> list string -> option T) {struct r} : option T :=
  match r with
  | Atom a =>
      match s with
      | EmptyString => None
      | String c s' => if atom_matches a c then k s' caps else None
      end
  | Cat r1 r2 => re_match r1 s caps (fun s1 caps1 => re_match r2 s1 caps1 k)
  | Opt r' =>
      match re_match r' s caps k with
      | Some x => Some x
      | None => k s caps
      end
  | StarLazy a =>
      (fix more (s : string) : option T :=
         match k s caps with
         | Some x => Some x
         | None =>
             match s with
             | EmptyString => None
             | String c s' => if atom_matches a c then more s' else None
             end
         end) s
  | Group r' =>
      re_match r' s caps
        (fun s' caps' => k s' (caps' ++ [take (len s - len s') s]))
  end.

(** A match object: [m.start()], [m.end()] and the groups [m.group(1)],
    [m.group(2)], ... in order. *)
Record Match := { m_start : nat; m_end : nat; m_groups : list string }.

Definition group (m : Match) (i : nat) : string :=
  nth (i - 1) (m_groups m) EmptyString.

(** One attempt at position [pos], where the text left is [s]. *)
Definition match_at (r : regex) (pos : nat) (s : string) : option Match :=
  re_match r s []
    (fun s' caps =>
       Some {| m_start := pos; m_end := pos + (len s - len s');
               m_groups := caps |}).

(** [re.search]: the attempt at the leftmost position that succeeds. *)
Fixpoint search_from (r : regex) (pos : nat) (s : string) : option Match :=
  match match_at r pos s with
  | Some m => Some m
  | None =>
      match s with
      | EmptyString => None
      | String _ s' => search_from r (S pos) s'
      end
  end.

Definition search (r : regex) (s : string) : option Match :=
  search_from r O s.

(** [re.finditer]: the matches from left to right, the search for the next
    one starting where the previous one ended.  [skip] counts the
    characters of the previous match still to be passed over.  (The
    patterns of the tools match no empty string.) *)
Fixpoint finditer_go (r : regex) (skip pos : nat) (s : string)
  : list Match :=
  match skip with
  | S k =>
      match s with
      | EmptyString => []
      | String _ s' => finditer_go r k (S pos) s'
      end
  | O =>
      match match_at r pos s with
      | Some m =>
          m :: match s with
               | EmptyString => []
               | String _ s' =>
                   finditer_go r (m_end m - m_start m - 1) (S pos) s'
               end
      | None =>
          match s with
          | EmptyString => []
          | String _ s' => finditer_go r O (S pos) s'
          end
      end
  end.

Definition finditer (r : regex) (s : string) : list Match :=
  finditer_go r O O s.

(** The two patterns of [inspect_manuscript]:
    [!\[.*?\]\(https?://.*?\)]  and  [!\[(.*?)\]\((.*?)\)]. *)
Definition external_image : regex :=
  lit "![" (Cat (StarLazy Dot)
    (lit "](http" (Cat (Opt (Atom (Chr "s")))
      (lit "://" (Cat (StarLazy Dot) (Atom (Chr ")"))))))).

Definition image_reference : regex :=
  lit "![" (Cat (Group (StarLazy Dot))
    (lit "](" (Cat (Group (StarLazy Dot)) (Atom (Chr ")"))))).

End Re.

(** ** Exceptions, the world outside, and calls with effects *)

(** An exception object: its class and what [str(e)] gives. *)
Record exn := Exn { exn_class : string; exn_str : string }.

(** How a call ends: it returns a value or raises. *)
Inductive outcome (A : Type) :=
| Ret (a : A)
| Raise (e : exn).
Arguments Ret {A} a.
Arguments Raise {A} e.

(** What the file system answers for a path: a directory, a file with its
    content, or an error other than absence ([ENAMETOOLONG] for a name
    above 255 bytes, [EACCES] for a parent that cannot be searched), which
    [stat] and [open] raise as an [OSError].  A path the map lacks is
    absent ([ENOENT]). *)
Inductive node :=
| Dir
| File (content : string)
| Fault (e : exn).

(** The calls that leave the process, in the order they are made. *)
Inductive event :=
| EvMkdirParent (output_path : string)
| EvSleep (seconds : nat)
| EvGet (url : string)            (* lines 33-38: the GET is attempted *)
| EvTableImage (html path css : string)
| EvConvertHtml (html_file aspect_ratio : string)
| EvTempDir (tmp_dir : string)
| EvPptToImages (pptx_path output_dir : string).

Record world := World { fs : gmap string node; trace : list event }.

(** What one streamed GET of [download_file] does (lines 33-43): it raises
    before the output file is opened, or after the file was opened and some
    chunks were written, or it writes the whole body. *)
Inductive attempt :=
| FailsEarly (e : exn)
| FailsStreaming (written : string) (e : exn)
| Completes (body : string).

(** The third-party code the tools call, and the configuration constant.
    Each field says what the call returns or raises, and what it leaves on
    disk, as a function of its arguments and of the file system it finds.
    A call that writes leaves a file system in either case: what it wrote
    before raising stays. *)
Record Env := {
  (** [deeppresenter.utils.config.RETRY_TIMES] *)
  RETRY_TIMES : nat;
  (** [Path(output_path).parent.mkdir(parents=True, exist_ok=True)] *)
  mkdir_parent :
    string -> gmap string node -> outcome unit * gmap string node;
  (** the [retry]-th GET of [url] streamed to [output_path] *)
  http_attempt : nat -> string -> string -> attempt;
  (** [PIL.Image.open(...).size] on a file of this content *)
  image_size : string -> outcome (Z * Z);
  (** [mistune.html] *)
  markdown_to_html : string -> string;
  (** [pptagent.utils.get_html_table_image(html, path, css)] *)
  get_html_table_image :
    string -> string -> string -> gmap string node ->
    outcome unit * gmap string node;
  (** [str(Path(p).absolute())] *)
  absolute : string -> string;
  (** [deeppresenter.utils.webview.convert_html_to_pptx]: the path of the
      deck it returns *)
  convert_html_to_pptx :
    string -> string -> gmap string node ->
    outcome string * gmap string node;
  (** [tempfile.TemporaryDirectory()]: the name of the fresh directory *)
  mkdtemp : gmap string node -> outcome string;
  (** [pptagent.utils.ppt_to_images(pptx_path, output_dir)] *)
  ppt_to_images :
    string -> string -> gmap string node ->
    outcome unit * gmap string node;
}.

(** A call with effects: from the world before to its outcome and the world
    after.  A raised exception leaves the effects made so far in place. *)
Definition M (A : Type) : Type := world -> outcome A * world.

Module Call.

Definition ret {A} (a : A) : M A := fun w => (Ret a, w).

Definition raise {A} (e : exn) : M A := fun w => (Raise e, w).

Definition bind {A B} (m : M A) (k : A -> M B) : M B :=
  fun w =>
    match m w with
    | (Ret a, w') => k a w'
    | (Raise e, w') => (Raise e, w')
    end.

(** [try: body / except ...: handler(e)], for the two handlers of the
    tools, the bare [except:] and [except Exception as e]. *)
Definition try_except {A} (body : M A) (handler : exn -> M A) : M A :=
  fun w =>
    match body w with
    | (Ret a, w') => (Ret a, w')
    | (Raise e, w') => handler e w'
    end.

(** [try: body / finally: cleanup] *)
Definition try_finally {A} (body : M A) (cleanup : M unit) : M A :=
  fun w =>
    match body w with
    | (Ret a, w') =>
        match cleanup w' with
        | (Ret _, w'') => (Ret a, w'')
        | (Raise e, w'') => (Raise e, w'')
        end
    | (Raise e, w') =>
        match cleanup w' with
        | (Ret _, w'') => (Raise e, w'')
        | (Raise e', w'') => (Raise e', w'')
        end
    end.

Definition emit (ev : event) : M unit :=
  fun w => (Ret tt, {| fs := fs w; trace := trace w ++ [ev] |}).

Definition get_fs : M (gmap string node) := fun w => (Ret (fs w), w).

Definition put_fs (f : gmap string node) : M unit :=
  fun w => (Ret tt, {| fs := f; trace := trace w |}).

(** An external call that may change the file system: whether it returns
    or raises, the file system after it is the one it leaves. *)
Definition external {A}
    (call : gmap string node -> outcome A * gmap string node) : M A :=
  fun w =>
    (fst (call (fs w)), {| fs := snd (call (fs w)); trace := trace w |}).

Definition of_outcome {A} (o : outcome A) : M A := fun w => (o, w).

End Call.

Notation "x <- m ;; k" := (Call.bind m (fun x => k))
  (at level 100, m at next level, right associativity, only parsing).
Notation "m ;;; k" := (Call.bind m (fun _ => k))
  (at level 100, right associativity, only parsing).

(** ** Paths and files *)

Module Fs.
Import PyStr.

(** [Path(p).exists()]: [stat] the path; an [OSError] that stands for
    absence gives [False], any other one is raised again. *)
Definition path_exists (f : gmap string node) (p : string) : outcome bool :=
  match f !! p with
  | Some (Fault e) => Raise e
  | Some _ => Ret true
  | None => Ret false
  end.

Definition FileNotFoundError (p : string) : exn :=
  Exn "FileNotFoundError"
      ("[Errno 2] No such file or directory: '" +:+ p +:+ "'").

Definition IsADirectoryError (p : string) : exn :=
  Exn "IsADirectoryError" ("[Errno 21] Is a directory: '" +:+ p +:+ "'").

(** [open(p).read()] and [Path(p).read_bytes()] *)
Definition read (f : gmap string node) (p : string) : outcome string :=
  match f !! p with
  | Some (File content) => Ret content
  | Some Dir => Raise (IsADirectoryError p)
  | Some (Fault e) => Raise e
  | None => Raise (FileNotFoundError p)
  end.

(** The last component of a path without trailing separator: [Path.name]. *)
Fixpoint name_go (cur : string) (p : string) : string :=
  match p with
  | EmptyString => rev cur
  | String c p' =>
      if Ascii.eqb c "/" then name_go EmptyString p'
      else name_go (String c cur) p'
  end.

Definition name (p : string) : string := name_go EmptyString p.

(** [s.rfind(c)]: the index of the last [c] in [s], if any. *)
Fixpoint rfind_go (c : ascii) (i : nat) (found : option nat) (s : string)
  : option nat :=
  match s with
  | EmptyString => found
  | String c' s' =>
      rfind_go c (S i) (if Ascii.eqb c' c then Some i else found) s'
  end.

Definition rfind (s : string) (c : ascii) : option nat :=
  rfind_go c O None s.

(** [Path.suffix]: with [i = name.rfind(".")], [name[i:]] when
    [0 < i < len(name) - 1], else the empty string. *)
Definition suffix (p : string) : string :=
  let n := name p in
  match rfind n "." with
  | None => EmptyString
  | Some i =>
      if ((0 <? i) && (i <? len n - 1))%nat then drop i n else EmptyString
  end.

End Fs.

(** ** [base64.b64encode] *)

Module Base64.

Definition alphabet : string :=
  "ABCDEFGHIJKLMNOPQRSTUVWXYZabcdefghijklmnopqrstuvwxyz0123456789+/".

Definition digit (n : N) : ascii :=
  match String.get (N.to_nat n) alphabet with
  | Some c => c
  | None => "="%char
  end.

(** Three bytes give four digits; a last group of one or two bytes is
    padded with [=]. *)
Fixpoint b64encode (s : string) : string :=
  match s with
  | EmptyString => EmptyString
  | String a EmptyString =>
      let x := N_of_ascii a in
      String (digit (x / 4))
        (String (digit (x mod 4 * 16)) "==")
  | String a (String b EmptyString) =>
      let x := N_of_ascii a in
      let y := N_of_ascii b in
      String (digit (x / 4))
        (String (digit (x mod 4 * 16 + y / 16))
           (String (digit (y mod 16 * 4)) "="))
  | String a (String b (String c rest)) =>
      let x := N_of_ascii a in
      let y := N_of_ascii b in
      let z := N_of_ascii c in
      String (digit (x / 4))
        (String (digit (x mod 4 * 16 + y / 16))
           (String (digit (y mod 16 * 4 + z / 64))
              (String (digit (z mod 64)) (b64encode rest))))
  end%N.

End Base64.

(** ** The tools *)

Module Tools.
Import PyStr.

(** *** [download_file] (lines 24-57) *)

(** Lines 32-43, the body of the [try]: sleep, then the streamed GET. *)
Definition attempt_body (env : Env) (retry : nat) (url output_path : string)
  : M unit :=
  Call.emit (EvSleep retry) ;;;
  Call.emit (EvGet url) ;;;
  f <- Call.get_fs ;;
  match http_attempt env retry url output_path with
  | FailsEarly e => Call.raise e
  | FailsStreaming written e =>
      Call.put_fs (<[output_path := File written]> f) ;;;
      Call.raise e
  | Completes body =>
      Call.put_fs (<[output_path := File body]> f)
  end.

(** Lines 30-47, the [for ... else] loop over the values of [range]: the
    result says how the loop was left, [true] by [break], [false] by
    running out of values (the [else] branch). *)
Fixpoint retry_loop (env : Env) (url output_path : string)
    (retries : list nat) : M bool :=
  match retries with
  | [] => Call.ret false
  | retry :: rest =>
      broke <- Call.try_except
                 (attempt_body env retry url output_path ;;; Call.ret true)
                 (fun _ => Call.ret false) ;;
      if broke : bool then Call.ret true
      else retry_loop env url output_path rest
  end.

Definition image_extensions : list string :=
  [".png"; ".jpg"; ".jpeg"; ".gif"; ".webp"; ".bmp"].

Definition download_failed (url : string) : string :=
  "Failed to download file from " +:+ url.

Definition downloaded (output_path : string) : string :=
  "File downloaded to " +:+ output_path.

Definition resolution (width height : Z) : string :=
  " (resolution: " +:+ of_int width +:+ "x" +:+ of_int height +:+ ")".

Definition not_an_image (e : exn) : string :=
  "The provided URL does not point to a valid image file: " +:+ exn_str e.

(** [with Image.open(output_path) as img: img.size] *)
Definition image_open_size (env : Env) (output_path : string)
  : M (Z * Z) :=
  f <- Call.get_fs ;;
  content <- Call.of_outcome (Fs.read f output_path) ;;
  Call.of_outcome (image_size env content).

Definition download_file (env : Env) (url output_path : string) : M string :=
  Call.emit (EvMkdirParent output_path) ;;;
  Call.external (mkdir_parent env output_path) ;;;
  broke <- retry_loop env url output_path (seq 0 (RETRY_TIMES env)) ;;
  if negb broke then Call.ret (download_failed url)
  else
    let result := downloaded output_path in
    if endswith_any (lower output_path) image_extensions
    then
      Call.try_except
        (size <- image_open_size env output_path ;;
         Call.ret (result +:+ resolution (fst size) (snd size)))
        (fun e => Call.ret (not_an_image e))
    else Call.ret result.

(** *** [markdown_table_to_image] (lines 61-77) *)

Definition table_converted (path : string) : string :=
  "Markdown table converted to image and saved to " +:+ path.

Definition markdown_table_to_image (env : Env)
    (markdown_table path css : string) : M string :=
  let html := markdown_to_html env markdown_table in
  Call.emit (EvTableImage html path css) ;;;
  Call.external (get_html_table_image env html path css) ;;;
  Call.ret (table_converted path).

(** *** [inspect_slide] (lines 81-107) *)

(** [mcp.types.ImageContent] *)
Record ImageContent :=
  { ic_type : string; ic_data : string; ic_mimeType : string }.

(** What [inspect_slide] returns: a string, an image, or (line 107) the
    exception object it caught. *)
Inductive slide_result :=
| SlideText (s : string)
| SlideImage (img : ImageContent)
| SlideException (e : exn).

Definition not_html (html_file : string) : string :=
  "HTML path " +:+ html_file +:+ " does not exist or is not an HTML file".

Definition bad_aspect_ratio : string :=
  "aspect_ratio should be one of 'widescreen', 'normal', 'A1'".

Definition no_output : string :=
  "Slide inspection failed: PPTX to image conversion produced no output.".

Definition aspect_ratios : list string := ["widescreen"; "normal"; "A1"].

Definition data_prefix : string := "data:image/jpeg;base64,".

(** [x in l] for strings. *)
Definition str_in (x : string) (l : list string) : bool :=
  existsb (String.eqb x) l.

(** [p] is the directory [d] or a path below it. *)
Definition under (d p : string) : bool :=
  String.eqb p d || startswith p (d +:+ "/").

(** Leaving [with tempfile.TemporaryDirectory()]: the directory and what
    is under it are removed, that is every path spelled as the name of the
    directory, or as this name, a slash and more. *)
Definition rmtree (d : string) : M unit :=
  f <- Call.get_fs ;;
  Call.put_fs (filter (fun kv => negb (under d kv.1)) f).

(** Lines 93-105, the body of the [try].  The inner result is [inl] for
    the early [return] of line 99 and [inr] for the bytes read. *)
Definition inspect_slide_body (env : Env) (html_file aspect_ratio : string)
  : M slide_result :=
  Call.emit (EvConvertHtml html_file aspect_ratio) ;;;
  pptx_path <- Call.external
                 (convert_html_to_pptx env html_file aspect_ratio) ;;
  f <- Call.get_fs ;;
  tmp_dir <- Call.of_outcome (mkdtemp env f) ;;
  Call.emit (EvTempDir tmp_dir) ;;;
  Call.put_fs (<[tmp_dir := Dir]> f) ;;;
  r <- Call.try_finally
         (Call.emit (EvPptToImages pptx_path tmp_dir) ;;;
          Call.external (ppt_to_images env pptx_path tmp_dir) ;;;
          let image_path := tmp_dir +:+ "/" +:+ "slide_0001.jpg" in
          f <- Call.get_fs ;;
          found <- Call.of_outcome (Fs.path_exists f image_path) ;;
          if negb found
          then Call.ret (inl no_output)
          else
            image_data <- Call.of_outcome (Fs.read f image_path) ;;
            Call.ret (inr image_data))
         (rmtree tmp_dir) ;;
  match r with
  | inl s => Call.ret (SlideText s)
  | inr image_data =>
      Call.ret (SlideImage
        {| ic_type := "image";
           ic_data := data_prefix +:+ Base64.b64encode image_data;
           ic_mimeType := "image/jpeg" |})
  end.

Definition inspect_slide (env : Env) (html_file aspect_ratio : string)
  : M slide_result :=
  let html_file := absolute env html_file in
  f <- Call.get_fs ;;
  found <- Call.of_outcome (Fs.path_exists f html_file) ;;
  if negb (found && String.eqb (Fs.suffix html_file) ".html")
  then Call.ret (SlideText (not_html html_file))
  else if negb (str_in aspect_ratio aspect_ratios)
  then Call.ret (SlideText bad_aspect_ratio)
  else
    Call.try_except
      (inspect_slide_body env html_file aspect_ratio)
      (fun e => Call.ret (SlideException e)).

End Tools.

(** ** [inspect_manuscript] (lines 111-157) *)

(** The values stored in the result: strings, and the list of warnings. *)
Inductive pyval :=
| VStr (s : string)
| VList (l : list string).

Module Manuscript.
Import PyStr.

(** [defaultdict(list)]: reading [d[key]] for a missing key stores a new
    empty list under [key]; the dictionary after the read. *)
Definition getitem_default (d : gmap string pyval) (key : string)
  : gmap string pyval :=
  match d !! key with
  | Some _ => d
  | None => <[key := VList []]> d
  end.

Definition AttributeError : exn :=
  Exn "AttributeError" "'str' object has no attribute 'append'".

(** [d[key].append(x)]: the list stored under [key] is extended in place. *)
Definition append_to (d : gmap string pyval) (key x : string)
  : outcome (gmap string pyval) :=
  let d' := getitem_default d key in
  match d' !! key with
  | Some (VList l) => Ret (<[key := VList (l ++ [x])]> d')
  | _ => Raise AttributeError
  end.

Definition IndexError : exn := Exn "IndexError" "list index out of range".

(** [l[i]] for a list and an [int]: negative indices count from the end. *)
Definition getitem (l : list string) (i : Z) : outcome string :=
  let j := if i <? 0 then Z.of_nat (length l) + i else i in
  if j <? 0 then Raise IndexError
  else match l !! Z.to_nat j with
       | Some x => Ret x
       | None => Raise IndexError
       end.

(** The page delimiter: newline, three dashes, newline. *)
Definition page_delimiter : string :=
  String newline (String "-" (String "-" (String "-"
    (String newline EmptyString)))).

(** Line 125: the segments of the document that are not blank. *)
Definition pages_of (markdown : string) : list string :=
  List.filter (fun p => truthy (strip p)) (split markdown page_delimiter).

Definition error (msg : string) : gmap string pyval :=
  {[ "error" := VStr msg ]}.

Definition file_does_not_exist (md_file : string) : string :=
  "file does not exist: " +:+ md_file.

Definition not_a_markdown_file (md_file : string) : string :=
  "file is not a markdown file: " +:+ md_file.

Definition page_id_not_positive : string :=
  "Page ID should be a positive integer starting from 1.".

Definition page_id_exceeds : string :=
  "Page ID exceeds the number of pages in the document. You could view full content using `read_file` to see if format error happened.".

Definition external_links_detected : string :=
  "External image links detected, please downloading and replace them with local paths.".

Definition file_missing (local_path : string) : string :=
  "Image file does not exist: " +:+ local_path
  +:+ ", please check if there is a format error or file missing.".

Definition label_missing (local_path : string) : string :=
  "Image file " +:+ local_path
  +:+ " is missing an alt text label; please add a descriptive label about the image's type, purpose, and content for better accessibility.".

Definition used_n_times (label local_path : string) (count : nat) : string :=
  "Image file " +:+ label +:+ ":" +:+ local_path +:+ " is used "
  +:+ of_nat count
  +:+ " times in the document, please check if it's an appropriate usage.".

(** A step that appends a warning when [cond] holds. *)
Definition warn_if (cond : bool) (msg : string) (d : gmap string pyval)
  : outcome (gmap string pyval) :=
  if cond then append_to d "warnings" msg else Ret d.

Definition and_then {A B} (o : outcome A) (k : A -> outcome B) : outcome B :=
  match o with
  | Ret a => k a
  | Raise e => Raise e
  end.

(** Lines 140-155: the body of the loop, for one match. *)
Definition check_reference (f : gmap string node) (markdown : string)
    (d : gmap string pyval) (m : Re.Match) : outcome (gmap string pyval) :=
  let label := Re.group m 1 in
  let local_path := Re.group m 2 in
  and_then (Fs.path_exists f local_path) (fun found =>
  and_then (warn_if (negb found) (file_missing local_path) d) (fun d =>
  let count := count markdown local_path in
  and_then (warn_if (negb (truthy (strip label)))
              (label_missing local_path) d) (fun d =>
  warn_if (negb (count =? 1)%nat)
    (used_n_times label local_path count) d))).

(** Line 139: the [for] loop over the matches. *)
Fixpoint check_references (f : gmap string node) (markdown : string)
    (d : gmap string pyval) (ms : list Re.Match)
  : outcome (gmap string pyval) :=
  match ms with
  | [] => Ret d
  | m :: ms' =>
      and_then (check_reference f markdown d m)
        (fun d => check_references f markdown d ms')
  end.

Definition inspect_manuscript (f : gmap string node) (md_file : string)
    (page_id : Z) : outcome (gmap string pyval) :=
  and_then (Fs.path_exists f md_file) (fun found =>
  if negb found
  then Ret (error (file_does_not_exist md_file))
  else if negb (endswith (lower md_file) ".md")
  then Ret (error (not_a_markdown_file md_file))
  else if page_id <? 1
  then Ret (error page_id_not_positive)
  else
    and_then (Fs.read f md_file) (fun markdown =>
    let pages := pages_of markdown in
    if negb (Z.of_nat (length pages) >=? page_id)
    then Ret (error page_id_exceeds)
    else
      let result : gmap string pyval := ∅ in
      let result :=
        <["page_id" := VStr (format_02d page_id +:+ "/"
                             +:+ format_02d (Z.of_nat (length pages)))]>
          result in
      and_then (getitem pages (page_id - 1)) (fun page =>
      let result := <["page_content" := VStr page]> result in
      and_then (warn_if (bool_decide (is_Some (Re.search Re.external_image page)))
                  external_links_detected result) (fun result =>
      check_references f markdown result
        (Re.finditer Re.image_reference page))))).

End Manuscript.

(** ** Reading the results: the vocabulary of the properties *)

Module Reading.
Import PyStr Manuscript.

(** Following the words of the specification: a number zero-padded to two
    digits. *)
Definition two_digits (n : Z) : string :=
  if n <? 10 then "0" +:+ of_int n else of_int n.

(** The list stored under the key [warnings], empty when the key is
    absent. *)
Definition warnings_of (d : gmap string pyval) : list string :=
  match d !! "warnings" with
  | Some (VList l) => l
  | _ => []
  end.

(** The dictionary [d] after the warnings [ws] were appended one by one:
    the key appears with the first of them. *)
Definition with_warnings (d : gmap string pyval) (ws : list string)
  : gmap string pyval :=
  match ws with
  | [] => d
  | _ :: _ => <["warnings" := VList ws]> d
  end.

(** [Path(p).exists()] answers [False]. *)
Definition absent (f : gmap string node) (p : string) : bool :=
  match Fs.path_exists f p with
  | Ret found => negb found
  | Raise _ => false
  end.

(** The exception of the first reference of a list whose path
    [Path.exists] raises on, if there is one: where the loop of line 139
    stops. *)
Fixpoint refs_fault (f : gmap string node) (ms : list Re.Match)
  : option exn :=
  match ms with
  | [] => None
  | m :: ms' =>
      match Fs.path_exists f (Re.group m 2) with
      | Raise e => Some e
      | Ret _ => refs_fault f ms'
      end
  end.

(** The warnings one iteration of the loop of line 139 appends, when it
    comes to its end. *)
Definition appended_for (f : gmap string node) (markdown : string)
    (m : Re.Match) : list string :=
  let label := Re.group m 1 in
  let local_path := Re.group m 2 in
  (if absent f local_path then [file_missing local_path] else [])
  ++ (if truthy (strip label) then [] else [label_missing local_path])
  ++ (if (count markdown local_path =? 1)%nat then []
      else [used_n_times label local_path (count markdown local_path)]).

(** All the warnings of a page, in the order they are appended. *)
Definition page_warnings (f : gmap string node) (markdown page : string)
  : list string :=
  (if bool_decide (is_Some (Re.search Re.external_image page))
   then [external_links_detected] else [])
  ++ flat_map (appended_for f markdown)
       (Re.finditer Re.image_reference page).

(** The two entries every successful inspection stores. *)
Definition page_result (page_id : Z) (total : nat) (page : string)
  : gmap string pyval :=
  <["page_content" := VStr page]>
    (<["page_id" := VStr (format_02d page_id +:+ "/"
                          +:+ format_02d (Z.of_nat total))]> ∅).

(** What a pattern matches, whatever the priorities: [parses r t caps]
    says that [r] matches exactly the text [t], its groups capturing [caps]
    in the order the groups close. *)
Inductive parses : Re.regex -> string -> list string -> Prop :=
| parses_atom a c :
    Re.atom_matches a c = true ->
    parses (Re.Atom a) (String c EmptyString) []
| parses_cat r1 r2 t1 t2 c1 c2 :
    parses r1 t1 c1 -> parses r2 t2 c2 ->
    parses (Re.Cat r1 r2) (t1 +:+ t2) (c1 ++ c2)
| parses_opt_taken r t c : parses r t c -> parses (Re.Opt r) t c
| parses_opt_skipped r : parses (Re.Opt r) EmptyString []
| parses_star_stop a : parses (Re.StarLazy a) EmptyString []
| parses_star_more a c t :
    Re.atom_matches a c = true -> parses (Re.StarLazy a) t [] ->
    parses (Re.StarLazy a) (String c t) []
| parses_group r t c : parses r t c -> parses (Re.Group r) t (c ++ [t]).

(** No newline in [s]. *)
Definition one_line (s : string) : bool :=
  forallb (fun c => negb (Ascii.eqb c newline)) (list_ascii_of_string s).

(** The last two characters of a text, last first. *)
Definition ending (s : string) : string := take 2 (rev s).

(** Empty, or whitespace only. *)
Definition blank (s : string) : bool :=
  forallb isspace (list_ascii_of_string s).

(** An attempt of [download_file] that reaches [break]. *)
Definition completes (a : attempt) : bool :=
  match a with Completes _ => true | _ => false end.

(** The calls one attempt makes, and those of a series of attempts. *)
Definition attempt_events (url : string) (retry : nat) : list event :=
  [EvSleep retry; EvGet url].

Definition attempts_events (url : string) (retries : list nat)
  : list event :=
  flat_map (attempt_events url) retries.

Definition is_get (ev : event) : bool :=
  match ev with EvGet _ => true | _ => false end.

(** The number of attempts [download_file] makes: up to and including the
    first one that completes, all of them when none does. *)
Definition attempts_made (env : Env) (url output_path : string) : nat :=
  match List.find (fun i => completes (http_attempt env i url output_path))
          (seq 0 (RETRY_TIMES env)) with
  | Some i => S i
  | None => RETRY_TIMES env
  end.

(** Lines 31-45: one pass through the [try] of the loop, [true] when it
    reached [break]. *)
Definition one_try (env : Env) (retry : nat) (url output_path : string)
  : M bool :=
  Call.try_except
    (Call.bind (Tools.attempt_body env retry url output_path)
       (fun _ => Call.ret true))
    (fun _ => Call.ret false).

(** The test of line 88 is passed: [exists()] answers [True] and the
    suffix is [.html]. *)
Definition html_path_ok (f : gmap string node) (html_file : string) : bool :=
  match Fs.path_exists f html_file with
  | Ret found => found && String.eqb (Fs.suffix html_file) ".html"
  | Raise _ => false
  end.


(** How a call ends, by cases: one of the four errors, the exception of
    [exists()] on the file, the exception of an unreadable file, the
    exception of [exists()] on the path of a reference, or the result for a
    page. *)
Inductive ending_of (f : gmap string node) (md_file : string) (page_id : Z)
  : outcome (gmap string pyval) -> Prop :=
| ends_unanswered e :
    Fs.path_exists f md_file = Raise e ->
    ending_of f md_file page_id (Raise e)
| ends_missing :
    Fs.path_exists f md_file = Ret false ->
    ending_of f md_file page_id (Ret (error (file_does_not_exist md_file)))
| ends_not_md :
    Fs.path_exists f md_file = Ret true ->
    endswith (lower md_file) ".md" = false ->
    ending_of f md_file page_id (Ret (error (not_a_markdown_file md_file)))
| ends_not_positive :
    page_id < 1 ->
    ending_of f md_file page_id (Ret (error page_id_not_positive))
| ends_unreadable e :
    Fs.path_exists f md_file = Ret true ->
    Fs.read f md_file = Raise e ->
    ending_of f md_file page_id (Raise e)
| ends_exceeds markdown :
    Fs.read f md_file = Ret markdown ->
    Z.of_nat (length (pages_of markdown)) < page_id ->
    ending_of f md_file page_id (Ret (error page_id_exceeds))
| ends_reference markdown page e :
    Fs.read f md_file = Ret markdown ->
    1 <= page_id <= Z.of_nat (length (pages_of markdown)) ->
    pages_of markdown !! Z.to_nat (page_id - 1) = Some page ->
    refs_fault f (Re.finditer Re.image_reference page) = Some e ->
    ending_of f md_file page_id (Raise e)
| ends_page markdown page :
    Fs.read f md_file = Ret markdown ->
    1 <= page_id <= Z.of_nat (length (pages_of markdown)) ->
    pages_of markdown !! Z.to_nat (page_id - 1) = Some page ->
    refs_fault f (Re.finditer Re.image_reference page) = None ->
    ending_of f md_file page_id
      (Ret (with_warnings
              (page_result page_id (length (pages_of markdown)) page)
              (page_warnings f markdown page))).

(** [sub in s]: the text [sub] stands somewhere in [s]. *)
Definition contains (s sub : string) : Prop :=
  exists a b, s = a +:+ sub +:+ b.

(** [c in s] for one character. *)
Definition has_char (c : ascii) (s : string) : bool :=
  existsb (Ascii.eqb c) (list_ascii_of_string s).


(** The seconds slept in a list of calls. *)
Fixpoint slept (evs : list event) : nat :=
  match evs with
  | [] => 0%nat
  | EvSleep i :: rest => (i + slept rest)%nat
  | _ :: rest => slept rest
  end.

End Reading.

(** ** Concrete runs *)

Module Scenario.
Import PyStr.

Definition nl : string := String newline EmptyString.

Definition ConnectError : exn := Exn "ConnectError" "All connection attempts failed".

Definition UnidentifiedImageError : exn :=
  Exn "UnidentifiedImageError" "cannot identify image file 'out/logo.png'".

Definition PermissionError : exn :=
  Exn "PermissionError" "[Errno 13] Permission denied: '/srv'".

Definition RenderError : exn := Exn "RuntimeError" "browser closed".

(** A run where the network answers at the third attempt and every
    renderer works. *)
Definition fair : Env :=
  {| RETRY_TIMES := 3;
     mkdir_parent := fun _ f => (Ret tt, f);
     http_attempt := fun retry _ _ =>
       match retry with
       | O => FailsEarly ConnectError
       | S O => FailsStreaming "PN" ConnectError
       | _ => Completes "PNG-640x480"
       end;
     image_size := fun content =>
       if String.eqb content "PNG-640x480" then Ret (640, 480)
       else Raise UnidentifiedImageError;
     markdown_to_html := fun md => "<table>" +:+ md +:+ "</table>";
     get_html_table_image := fun _ path _ f =>
       (Ret tt, <[path := File "PNG"]> f);
     absolute := fun p => "/work/" +:+ p;
     convert_html_to_pptx := fun html _ f =>
       (Ret (html +:+ ".pptx"), <[html +:+ ".pptx" := File "PPTX"]> f);
     mkdtemp := fun _ => Ret "/tmp/tmp1";
     ppt_to_images := fun _ dir f =>
       (Ret tt, <[dir +:+ "/slide_0001.jpg" := File "Man"]> f) |}.

(** The same run with a network that never answers. *)
Definition offline : Env :=
  {| RETRY_TIMES := RETRY_TIMES fair;
     mkdir_parent := mkdir_parent fair;
     http_attempt := fun _ _ _ => FailsEarly ConnectError;
     image_size := image_size fair;
     markdown_to_html := markdown_to_html fair;
     get_html_table_image := get_html_table_image fair;
     absolute := absolute fair;
     convert_html_to_pptx := convert_html_to_pptx fair;
     mkdtemp := mkdtemp fair;
     ppt_to_images := ppt_to_images fair |}.

(** The same run where the body received is no image. *)
Definition not_image : Env :=
  {| RETRY_TIMES := RETRY_TIMES fair;
     mkdir_parent := mkdir_parent fair;
     http_attempt := fun _ _ _ => Completes "<html>404</html>";
     image_size := image_size fair;
     markdown_to_html := markdown_to_html fair;
     get_html_table_image := get_html_table_image fair;
     absolute := absolute fair;
     convert_html_to_pptx := convert_html_to_pptx fair;
     mkdtemp := mkdtemp fair;
     ppt_to_images := ppt_to_images fair |}.

(** The same run where the parent directory cannot be created, the table
    renderer fails, the HTML converter fails and the slide renderer writes
    nothing. *)
Definition broken : Env :=
  {| RETRY_TIMES := RETRY_TIMES fair;
     mkdir_parent := fun _ f => (Raise PermissionError, f);
     http_attempt := http_attempt fair;
     image_size := image_size fair;
     markdown_to_html := markdown_to_html fair;
     get_html_table_image := fun _ _ _ f => (Raise RenderError, f);
     absolute := absolute fair;
     convert_html_to_pptx := fun _ _ f => (Raise RenderError, f);
     mkdtemp := mkdtemp fair;
     ppt_to_images := fun _ _ f => (Ret tt, f) |}.

Definition silent : Env :=
  {| RETRY_TIMES := RETRY_TIMES fair;
     mkdir_parent := mkdir_parent fair;
     http_attempt := http_attempt fair;
     image_size := image_size fair;
     markdown_to_html := markdown_to_html fair;
     get_html_table_image := get_html_table_image fair;
     absolute := absolute fair;
     convert_html_to_pptx := convert_html_to_pptx fair;
     mkdtemp := mkdtemp fair;
     ppt_to_images := fun _ _ f => (Ret tt, f) |}.

(** A manuscript of two pages; [fig/a.png] is referenced once on each. *)
Definition talk : string :=
  "# Intro" +:+ nl +:+ "![chart](fig/a.png)" +:+ nl
  +:+ "---" +:+ nl
  +:+ "# Results" +:+ nl +:+ "![](http://example.com/x.png)" +:+ nl
  +:+ "![again](fig/a.png) ![alt](missing.png)".

(** A manuscript of one page with nothing to report. *)
Definition clean : string :=
  "# Only page" +:+ nl +:+ "![logo](fig/a.png)".

Definition disk : gmap string node :=
  {[ "talk.md" := File talk;
     "clean.md" := File clean;
     "notes.md" := Dir;
     "fig/a.png" := File "PNG-640x480";
     "/work/slide.html" := File "<html></html>";
     "/work/slide.txt" := File "text" ]}.

Definition start : world := {| fs := disk; trace := [] |}.

Fixpoint copies (n : nat) (c : ascii) : string :=
  match n with
  | O => EmptyString
  | S n' => String c (copies n' c)
  end.

(** A name of 256 characters, one more than a file name may have. *)
Definition long_name : string := copies 256 "a".

(** What [stat] raises on such a name. *)
Definition NameTooLong (p : string) : exn :=
  Exn "OSError" ("[Errno 36] File name too long: '" +:+ p +:+ "'").

(** A manuscript of two pages whose second page refers to an image by a
    name too long. *)
Definition overlong : string :=
  "# One" +:+ nl +:+ "---" +:+ nl +:+ "![x](" +:+ long_name +:+ ")".

(** The same disk with that manuscript, and the long names as the system
    answers for them. *)
Definition strict : gmap string node :=
  <[long_name +:+ ".md" := Fault (NameTooLong (long_name +:+ ".md"))]>
    (<[long_name := Fault (NameTooLong long_name)]>
       (<["/work/" +:+ long_name +:+ ".html"
          := Fault (NameTooLong ("/work/" +:+ long_name +:+ ".html"))]>
          (<["overlong.md" := File overlong]> disk))).


End Scenario.

(** ** The embedding, run

    Values of the Python functions on small inputs, as CPython 3.11 gives
    them. *)

Module Runs.
Import PyStr.

Example split_keeps_empty_segments :
  split "a--b----c--" "--" = ["a"; "b"; ""; "c"; ""].
Proof. reflexivity. Qed.

Example count_does_not_overlap :
  count "aaaa" "aa" = 2%nat /\ count "abc" "" = 4%nat.
Proof. split; reflexivity. Qed.

Example strip_both_ends : strip "  a b  " = "a b".
Proof. reflexivity. Qed.

Example format_02d_values :
  format_02d 7 = "07" /\ format_02d 12 = "12" /\ format_02d 123 = "123"
  /\ format_02d 0 = "00" /\ format_02d (-1) = "-1".
Proof. repeat split; reflexivity. Qed.

Example b64encode_padding :
  Base64.b64encode "Man" = "TWFu" /\ Base64.b64encode "Ma" = "TWE="
  /\ Base64.b64encode "M" = "TQ==".
Proof. repeat split; reflexivity. Qed.

Example suffix_values :
  Fs.suffix "/a/b/c.html" = ".html" /\ Fs.suffix "/a/b/.html" = ""
  /\ Fs.suffix "/a/c.tar.gz" = ".gz" /\ Fs.suffix "/a/c." = "".
Proof. repeat split; reflexivity. Qed.

Example finditer_groups :
  Re.finditer Re.image_reference "x ![a](b.png) y ![](http://e/x.png)"
  = [ {| Re.m_start := 2; Re.m_end := 13;
         Re.m_groups := ["a"; "b.png"] |};
      {| Re.m_start := 16; Re.m_end := 35;
         Re.m_groups := [""; "http://e/x.png"] |} ].
Proof. reflexivity. Qed.

(** The lazy label of the external-image pattern runs over a local
    reference to reach the first [](http]. *)
Example search_leftmost :
  Re.search Re.external_image "![a](b.png) ![](https://e/x.png)"
  = Some {| Re.m_start := 0; Re.m_end := 32; Re.m_groups := [] |}.
Proof. reflexivity. Qed.

(** A label over two lines is no match: [.] stops at the newline. *)
Example no_match_over_lines :
  Re.finditer Re.image_reference
    ("![a" +:+ String newline "b](http://e/x.png)") = [].
Proof. reflexivity. Qed.

End Runs.

(** * Properties *)

(** ** Strings *)

Module PyStrFacts.
Import PyStr Reading.

Lemma len_app a b : len (a +:+ b) = (len a + len b)%nat.
Proof. induction a as [|c a IH]; simpl; [done|]. by rewrite <- IH. Qed.

Lemma app_assoc_str a b c : (a +:+ b) +:+ c = a +:+ (b +:+ c).
Proof.
  induction a as [|x a IH]; [done|].
  change (String x ((a +:+ b) +:+ c) = String x (a +:+ (b +:+ c))).
  by rewrite IH.
Qed.

Lemma take_app_len t s : take (len (t +:+ s) - len s) (t +:+ s) = t.
Proof.
  rewrite len_app. replace (len t + len s - len s)%nat with (len t) by lia.
  induction t as [|c t IH]; simpl.
  - by destruct s.
  - change (String c t +:+ s) with (String c (t +:+ s)). by rewrite IH.
Qed.

Lemma rev_onto_app a b acc :
  rev_onto (a +:+ b) acc = rev_onto b (rev_onto a acc).
Proof.
  revert acc. induction a as [|c a IH]; intros acc; [done|]. apply IH.
Qed.

Lemma rev_onto_acc s : forall a b,
  rev_onto s (a +:+ b) = rev_onto s a +:+ b.
Proof.
  induction s as [|c s IH]; intros a b; [done|]. simpl.
  change (String c (a +:+ b)) with (String c a +:+ b). apply IH.
Qed.

Lemma startswith_app p s : startswith (p +:+ s) p = true.
Proof.
  induction p as [|c p IH]; [done|].
  change (String c p +:+ s) with (String c (p +:+ s)). simpl.
  by rewrite Ascii.eqb_refl, IH.
Qed.

Lemma endswith_app s p : endswith (s +:+ p) p = true.
Proof.
  unfold endswith, rev. rewrite rev_onto_app.
  generalize (rev_onto s EmptyString). intros acc.
  change acc with (EmptyString +:+ acc). rewrite rev_onto_acc.
  apply startswith_app.
Qed.

(** One digit below ten, two or more from ten on. *)
Lemma of_int_small z : 0 <= z < 10 -> len (of_int z) = 1%nat.
Proof.
  intros H.
  assert (z = 0 \/ z = 1 \/ z = 2 \/ z = 3 \/ z = 4 \/ z = 5 \/ z = 6
          \/ z = 7 \/ z = 8 \/ z = 9) as Hz by lia.
  repeat destruct Hz as [-> | Hz]; try reflexivity. by subst.
Qed.

Lemma of_int_large z : 10 <= z -> (2 <= len (of_int z))%nat.
Proof.
  intros H. destruct z as [|p|p]; try lia.
  unfold of_int. simpl.
  pose proof (DecimalPos.Unsigned.of_to p) as Hp.
  destruct (Pos.to_uint p) as [|u|u|u|u|u|u|u|u|u|u] eqn:Hu;
    simpl in *; try lia;
    destruct u; simpl in *; try lia; try (injection Hp; lia).
Qed.

(** The format [02d] does what the specification calls zero-padding to two
    digits. *)
Lemma format_02d_two_digits z : 0 <= z -> format_02d z = two_digits z.
Proof.
  intros H. unfold format_02d, format_0d, two_digits.
  destruct (Z.ltb_spec z 0) as [?|_]; [lia|].
  rewrite Z.abs_eq by done. simpl len.
  destruct (Z.ltb_spec z 10) as [Hlt|Hge].
  - by rewrite of_int_small by lia.
  - pose proof (of_int_large z Hge).
    replace (2 - 0 - len (of_int z))%nat with 0%nat by lia. reflexivity.
Qed.

(** [split] and [join], [split] and [count]. *)
Lemma rev_cons c s : rev (String c s) = rev s +:+ String c EmptyString.
Proof.
  unfold rev. simpl.
  change (String c EmptyString) with (EmptyString +:+ String c EmptyString).
  apply rev_onto_acc.
Qed.

Lemma startswith_prefix p : forall s,
  startswith s p = true -> exists s', s = p +:+ s'.
Proof.
  induction p as [|c p IH]; intros s H; [by exists s|].
  destruct s as [|c' s]; [done|]. simpl in H.
  apply andb_true_iff in H as [Hc Hp]. apply Ascii.eqb_eq in Hc as ->.
  apply IH in Hp as [s' ->]. by exists s'.
Qed.

Lemma app_empty_r s : s +:+ EmptyString = s.
Proof.
  induction s as [|c s IH]; [done|].
  change (String c (s +:+ EmptyString) = String c s). by rewrite IH.
Qed.

Lemma split_go_skip sep t : forall cur s,
  split_go sep (len t) cur (t +:+ s) = split_go sep O cur s.
Proof. induction t as [|c t IH]; intros cur s; [done|]. apply IH. Qed.

Lemma split_go_cons sep skip cur s :
  exists x l, split_go sep skip cur s = x :: l.
Proof.
  revert skip cur. induction s as [|c s IH]; intros skip cur; simpl.
  - by eexists _, _.
  - destruct skip; [|apply IH]. destruct (startswith _ _); [|apply IH].
    by eexists _, _.
Qed.

Lemma join_split_go sep n : forall s cur,
  sep <> EmptyString -> (len s <= n)%nat ->
  join sep (split_go sep O cur s) = rev cur +:+ s.
Proof.
  induction n as [|n IH]; intros s cur Hsep Hn.
  - destruct s; [|simpl in Hn; lia]. simpl. by rewrite app_empty_r.
  - destruct s as [|c s]; [apply (IH EmptyString); simpl; [done|lia]|].
    simpl split_go. destruct (startswith (String c s) sep) eqn:Hst.
    + apply startswith_prefix in Hst as [s'' Hs].
      destruct sep as [|c0 sep']; [done|].
      change (String c0 sep' +:+ s'') with (String c0 (sep' +:+ s'')) in Hs.
      injection Hs as -> ->.
      replace (len (String c0 sep') - 1)%nat with (len sep')
        by (simpl; lia).
      rewrite split_go_skip.
      destruct (split_go_cons (String c0 sep') O EmptyString s'')
        as (x & l & Hxl).
      assert (Hrec : join (String c0 sep')
                       (split_go (String c0 sep') O EmptyString s'')
                     = s'').
      { apply (IH s'' EmptyString Hsep). simpl in Hn.
        rewrite len_app in Hn. lia. }
      rewrite Hxl in *.
      change (join (String c0 sep') (rev cur :: x :: l))
        with (rev cur +:+ String c0 sep'
              +:+ join (String c0 sep') (x :: l)).
      by rewrite Hrec.
    + rewrite IH by (simpl in Hn; done || lia).
      rewrite rev_cons. by rewrite app_assoc_str.
Qed.

(** [sep.join(s.split(sep)) == s] *)
Lemma join_split s sep : sep <> EmptyString -> join sep (split s sep) = s.
Proof.
  intros Hsep. unfold split. by rewrite (join_split_go sep (len s)).
Qed.

Lemma length_split_go sep s : forall skip cur,
  length (split_go sep skip cur s) = S (count_go sep skip s).
Proof.
  induction s as [|c s IH]; intros skip cur; simpl; [done|].
  destruct skip; [|apply IH].
  destruct (startswith _ _); simpl; by rewrite IH.
Qed.

(** [len(s.split(sep)) == s.count(sep) + 1]: both scans find the same
    occurrences. *)
Lemma length_split s sep :
  sep <> EmptyString -> length (split s sep) = S (count s sep).
Proof.
  intros Hsep. unfold split, count. destruct sep; [done|].
  apply length_split_go.
Qed.

(** [strip] leaves nothing exactly of the texts that are empty or made of
    whitespace. *)
Lemma lstrip_empty s : lstrip s = EmptyString <-> blank s = true.
Proof.
  unfold blank. induction s as [|c s IH]; simpl; [done|].
  destruct (isspace c); simpl; [exact IH|]. split; discriminate.
Qed.

Lemma lstrip_head s c s' : lstrip s = String c s' -> isspace c = false.
Proof.
  induction s as [|a s IH]; simpl; [discriminate|].
  destruct (isspace a) eqn:Ha; [exact IH|]. intros H.
  injection H as Hac _. by rewrite <- Hac.
Qed.

Lemma blank_rev_onto s : forall acc,
  blank (rev_onto s acc) = blank s && blank acc.
Proof.
  unfold blank. induction s as [|c s IH]; intros acc; simpl; [done|].
  rewrite IH. simpl. by destruct (isspace c), (forallb _ _), (forallb _ _).
Qed.

Lemma rev_onto_empty s : forall acc,
  rev_onto s acc = EmptyString -> s = EmptyString /\ acc = EmptyString.
Proof.
  induction s as [|c s IH]; intros acc H; [done|].
  simpl in H. apply IH in H as [_ H]. discriminate.
Qed.

Lemma rev_empty s : rev s = EmptyString -> s = EmptyString.
Proof. intros H. by apply rev_onto_empty in H as [H _]. Qed.

Lemma strip_empty s : strip s = EmptyString <-> blank s = true.
Proof.
  split.
  - unfold strip, rstrip. intros H. apply rev_empty, lstrip_empty in H.
    unfold rev in H. rewrite blank_rev_onto, andb_true_r in H.
    destruct (lstrip s) as [|c s'] eqn:Hl; [by apply lstrip_empty|].
    apply lstrip_head in Hl. unfold blank in H. simpl in H.
    by rewrite Hl in H.
  - intros H. apply lstrip_empty in H. unfold strip. by rewrite H.
Qed.

Lemma truthy_strip s : truthy (strip s) = negb (blank s).
Proof.
  destruct (blank s) eqn:Hb.
  - apply strip_empty in Hb. by rewrite Hb.
  - destruct (strip s) eqn:Hs; [|done].
    apply strip_empty in Hs. congruence.
Qed.

End PyStrFacts.

(** ** The matcher finds what the pattern allows *)

Module ReFacts.
Import PyStr Re Reading PyStrFacts.

(** *** Completeness: what the pattern allows is found *)

Lemma re_match_complete {T} r t c :
  parses r t c ->
  forall s' caps (k : string -> list string -> option T),
    (forall caps', is_Some (k s' caps')) ->
    is_Some (re_match r (t +:+ s') caps k).
Proof.
  induction 1 as [a x Ha | r1 r2 t1 t2 c1 c2 _ IH1 _ IH2 | r t c _ IH | r
                 | a | a x t Ha _ IH | r t c _ IH];
    intros s' caps k Hk.
  - change (String x EmptyString +:+ s') with (String x s'). simpl.
    rewrite Ha. apply Hk.
  - rewrite app_assoc_str. simpl. apply IH1. intros caps1. by apply IH2.
  - simpl. destruct (IH s' caps k Hk) as [y ->]. by eexists.
  - change (EmptyString +:+ s') with s'. simpl.
    destruct (re_match r s' caps k); [by eexists | apply Hk].
  - change (EmptyString +:+ s') with s'. simpl.
    destruct s'; destruct (Hk caps) as [y ->]; by eexists.
  - change (String x t +:+ s') with (String x (t +:+ s')). simpl.
    destruct (k (String x (t +:+ s')) caps); [by eexists|].
    rewrite Ha. apply (IH s' caps k Hk).
  - simpl. apply IH. intros caps'. apply Hk.
Qed.

Lemma parses_lit_intro p r t c : parses r t c -> parses (lit p r) (p +:+ t) c.
Proof.
  intros H. induction p as [|x p IH]; [done|].
  change (String x p +:+ t) with (String x EmptyString +:+ (p +:+ t)).
  change c with ([] ++ c). simpl lit.
  constructor; [|exact IH]. constructor. simpl. apply Ascii.eqb_refl.
Qed.

Lemma parses_lazy_dots_intro l :
  one_line l = true -> parses (StarLazy Dot) l [].
Proof.
  unfold one_line. induction l as [|x l IH]; simpl; intros H.
  - constructor.
  - apply andb_true_iff in H as [Hx Hl]. constructor; [exact Hx | auto].
Qed.

Lemma match_at_complete r pos t c s' :
  parses r t c -> is_Some (match_at r pos (t +:+ s')).
Proof.
  intros H. unfold match_at. eapply re_match_complete; [exact H|].
  intros caps'. by eexists.
Qed.

Lemma search_from_complete r t c pre post : forall pos,
  parses r t c -> is_Some (search_from r pos (pre +:+ t +:+ post)).
Proof.
  induction pre as [|x pre IH]; intros pos H.
  - change (EmptyString +:+ t +:+ post) with (t +:+ post).
    destruct (match_at_complete r pos t c post H) as [m Hm].
    destruct (t +:+ post); simpl; rewrite Hm; by eexists.
  - change (String x pre +:+ t +:+ post)
      with (String x (pre +:+ t +:+ post)). simpl.
    destruct (match_at r pos _); [by eexists|]. by apply IH.
Qed.

(** The text of an image reference with an external URL is what the
    external-image pattern matches. *)
Lemma parses_external_image_intro label scheme rest :
  scheme = "http" \/ scheme = "https" ->
  one_line label = true -> one_line rest = true ->
  parses external_image
    ("![" +:+ label +:+ "](" +:+ scheme +:+ "://" +:+ rest +:+ ")") [].
Proof.
  intros Hs Hl Hr. unfold external_image.
  apply parses_lit_intro.
  change [] with (@nil string ++ []). constructor;
    [by apply parses_lazy_dots_intro|].
  assert (Hrest : parses (lit "://" (Cat (StarLazy Dot) (Atom (Chr ")"))))
                    ("://" +:+ rest +:+ ")") []).
  { apply parses_lit_intro. change [] with (@nil string ++ []).
    constructor; [by apply parses_lazy_dots_intro|].
    constructor. reflexivity. }
  destruct Hs as [-> | ->].
  - change ("](" +:+ "http" +:+ "://" +:+ rest +:+ ")")
      with ("](http" +:+ EmptyString +:+ "://" +:+ rest +:+ ")").
    apply parses_lit_intro. change [] with (@nil string ++ []).
    constructor; [apply parses_opt_skipped | exact Hrest].
  - change ("](" +:+ "https" +:+ "://" +:+ rest +:+ ")")
      with ("](http" +:+ "s" +:+ "://" +:+ rest +:+ ")").
    apply parses_lit_intro. change [] with (@nil string ++ []).
    constructor; [|exact Hrest].
    apply parses_opt_taken. constructor. reflexivity.
Qed.

Lemma external_image_found pre label scheme rest post :
  scheme = "http" \/ scheme = "https" ->
  one_line label = true -> one_line rest = true ->
  is_Some (search external_image
             (pre +:+ "![" +:+ label +:+ "](" +:+ scheme +:+ "://"
              +:+ rest +:+ ")" +:+ post)).
Proof.
  intros Hs Hl Hr. unfold search.
  pose proof (search_from_complete external_image _ _ pre post O
                (parses_external_image_intro label scheme rest Hs Hl Hr))
    as H.
  by rewrite !app_assoc_str in H.
Qed.

(** *** Soundness: what is found is what the pattern allows *)

Lemma re_match_sound {T} r :
  forall s caps (k : string -> list string -> option T) x,
    re_match r s caps k = Some x ->
    exists t s' c, s = t +:+ s' /\ parses r t c /\ k s' (caps ++ c) = Some x.
Proof.
  induction r as [a | r1 IH1 r2 IH2 | r IH | a | r IH]; intros s caps k x H;
    simpl in H.
  - destruct s as [|c s]; [done|].
    destruct (atom_matches a c) eqn:Ha; [|done].
    exists (String c EmptyString), s, []. rewrite app_nil_r.
    split; [done|]. split; [by constructor | done].
  - apply IH1 in H as (t1 & s1 & c1 & -> & Hp1 & H).
    apply IH2 in H as (t2 & s2 & c2 & -> & Hp2 & H).
    exists (t1 +:+ t2), s2, (c1 ++ c2).
    rewrite app_assoc_str, app_assoc. split; [done|].
    split; [by constructor | done].
  - destruct (re_match r s caps k) as [y|] eqn:Hr.
    + injection H as ->. apply IH in Hr as (t & s' & c & -> & Hp & Hk).
      exists t, s', c. split; [done|]. split; [by constructor | done].
    + exists EmptyString, s, []. rewrite app_nil_r.
      split; [done|]. split; [apply parses_opt_skipped | done].
  - revert H. induction s as [|c s IHs]; intros H.
    + destruct (k EmptyString caps) eqn:Hk; [|done]. injection H as ->.
      exists EmptyString, EmptyString, []. rewrite app_nil_r.
      split; [done|]. split; [constructor | done].
    + destruct (k (String c s) caps) eqn:Hk.
      * injection H as ->. exists EmptyString, (String c s), [].
        rewrite app_nil_r. split; [done|]. split; [constructor | done].
      * destruct (atom_matches a c) eqn:Ha; [|done].
        apply IHs in H as (t & s' & c' & -> & Hp & Hk').
        assert (c' = []) as -> by by inversion Hp.
        exists (String c t), s', []. split; [done|].
        split; [by constructor | done].
  - apply IH in H as (t & s' & c & -> & Hp & H).
    rewrite take_app_len in H. exists t, s', (c ++ [t]).
    rewrite app_assoc. split; [done|]. split; [by constructor | done].
Qed.

Lemma parses_chr x t c :
  parses (Atom (Chr x)) t c -> t = String x EmptyString /\ c = [].
Proof.
  inversion 1 as [a c0 Ha | | | | | | ]; subst. simpl in Ha.
  apply Ascii.eqb_eq in Ha as ->. done.
Qed.

Lemma parses_lit p r : forall t c,
  parses (lit p r) t c -> exists t', t = p +:+ t' /\ parses r t' c.
Proof.
  induction p as [|x p IH]; intros t c H; simpl in H.
  - by exists t.
  - inversion H as [ | r1 r2 t1 t2 c1 c2 H1 H2 | | | | | ]; subst.
    apply parses_chr in H1 as [-> ->].
    apply IH in H2 as (t' & -> & Hr). by exists t'.
Qed.

Lemma parses_lazy_dots t c :
  parses (StarLazy Dot) t c -> c = [] /\ one_line t = true.
Proof.
  remember (StarLazy Dot) as r eqn:Hr. unfold one_line.
  induction 1 as [ | | | | a | a x t Hx _ IH | ]; try discriminate.
  - done.
  - injection Hr as ->. split; [done|]. simpl in *.
    rewrite Hx. by apply IH.
Qed.

Lemma parses_group_dots t c :
  parses (Group (StarLazy Dot)) t c -> c = [t] /\ one_line t = true.
Proof.
  inversion 1 as [ | | | | | | r t' c' H' ]; subst.
  by apply parses_lazy_dots in H' as [-> ?].
Qed.

(** What the image-reference pattern matches, and what its groups hold. *)
Lemma parses_image_reference t c :
  parses image_reference t c ->
  exists label path,
    t = "![" +:+ label +:+ "](" +:+ path +:+ ")"
    /\ c = [label; path]
    /\ one_line label = true /\ one_line path = true.
Proof.
  unfold image_reference. intros H.
  apply parses_lit in H as (t1 & -> & H).
  inversion H as [ | r1 r2 label t2 c1 c2 H1 H2 | | | | | ]; subst.
  apply parses_group_dots in H1 as [-> Hl].
  apply (parses_lit "](" (Cat (Group (StarLazy Dot)) (Atom (Chr ")"))))
    in H2 as (t3 & -> & H2).
  inversion H2 as [ | r1 r2 path t4 c3 c4 H3 H4 | | | | | ]; subst.
  apply parses_group_dots in H3 as [-> Hp].
  apply parses_chr in H4 as [-> ->].
  exists label, path. done.
Qed.

(** What the external-image pattern matches. *)
Lemma parses_external_image t c :
  parses external_image t c ->
  exists label scheme rest,
    t = "![" +:+ label +:+ "](" +:+ scheme +:+ "://" +:+ rest +:+ ")"
    /\ (scheme = "http" \/ scheme = "https")
    /\ one_line label = true /\ one_line rest = true.
Proof.
  unfold external_image. intros H.
  apply parses_lit in H as (t1 & -> & H).
  inversion H as [ | r1 r2 label t2 c1 c2 H1 H2 | | | | | ]; subst.
  apply parses_lazy_dots in H1 as [-> Hl].
  apply (parses_lit "](http"
           (Cat (Opt (Atom (Chr "s")))
              (lit "://" (Cat (StarLazy Dot) (Atom (Chr ")"))))))
    in H2 as (t3 & -> & H2).
  inversion H2 as [ | r1 r2 s t4 c3 c4 H3 H4 | | | | | ]; subst.
  apply (parses_lit "://" (Cat (StarLazy Dot) (Atom (Chr ")"))))
    in H4 as (t5 & -> & H4).
  inversion H4 as [ | r1 r2 rest t6 c5 c6 H5 H6 | | | | | ]; subst.
  apply parses_lazy_dots in H5 as [-> Hr].
  apply parses_chr in H6 as [-> ->].
  inversion H3 as [ | | r t c H3' | r | | | ]; subst.
  - apply parses_chr in H3' as [-> ->].
    exists label, "https", rest. split; [done|]. split; [by right | done].
  - exists label, "http", rest. split; [done|]. split; [by left | done].
Qed.

Lemma match_at_sound r pos s m :
  match_at r pos s = Some m ->
  exists t s',
    s = t +:+ s' /\ parses r t (m_groups m)
    /\ m_start m = pos /\ m_end m = (pos + len t)%nat.
Proof.
  unfold match_at. intros H.
  apply re_match_sound in H as (t & s' & c & -> & Hp & H).
  injection H as <-. exists t, s'. simpl.
  rewrite len_app. repeat split; [done | lia].
Qed.

Lemma search_from_sound r s : forall pos m,
  search_from r pos s = Some m ->
  exists pre t post, s = pre +:+ t +:+ post /\ parses r t (m_groups m).
Proof.
  induction s as [|x s IH]; intros pos m H; simpl in H.
  - destruct (match_at r pos EmptyString) as [m'|] eqn:Hat; [|done].
    injection H as ->.
    apply match_at_sound in Hat as (t & s' & Hs & Hp & _).
    by exists EmptyString, t, s'.
  - destruct (match_at r pos (String x s)) as [m'|] eqn:Hat.
    + injection H as ->.
      apply match_at_sound in Hat as (t & s' & Hs & Hp & _).
      by exists EmptyString, t, s'.
    + apply IH in H as (pre & t & post & -> & Hp).
      by exists (String x pre), t, post.
Qed.

(** The search for an external image succeeds exactly on the texts that
    hold an image reference with an [http://] or [https://] URL. *)
Lemma external_image_search page :
  is_Some (search external_image page)
  <-> exists pre label scheme rest post,
        page = pre +:+ "![" +:+ label +:+ "](" +:+ scheme +:+ "://"
               +:+ rest +:+ ")" +:+ post
        /\ (scheme = "http" \/ scheme = "https")
        /\ one_line label = true /\ one_line rest = true.
Proof.
  split.
  - intros [m Hm]. apply search_from_sound in Hm as (pre & t & post & -> & Hp).
    apply parses_external_image in Hp
      as (label & scheme & rest & -> & Hs & Hl & Hr).
    exists pre, label, scheme, rest, post. by rewrite !app_assoc_str.
  - intros (pre & label & scheme & rest & post & -> & Hs & Hl & Hr).
    by apply external_image_found.
Qed.

Lemma finditer_go_sound r s : forall skip pos m,
  In m (finditer_go r skip pos s) ->
  exists pre t post,
    s = pre +:+ t +:+ post /\ parses r t (m_groups m)
    /\ m_start m = (pos + len pre)%nat.
Proof.
  assert (Hshift : forall c s' pos m,
            (exists pre t post,
               s' = pre +:+ t +:+ post /\ parses r t (m_groups m)
               /\ m_start m = (S pos + len pre)%nat) ->
            exists pre t post,
              String c s' = pre +:+ t +:+ post /\ parses r t (m_groups m)
              /\ m_start m = (pos + len pre)%nat).
  { intros c s' pos m (pre & t & post & -> & Hp & Hs).
    exists (String c pre), t, post. simpl. repeat split; [done | lia]. }
  induction s as [|c s IH]; intros skip pos m Hm.
  - destruct skip; simpl in Hm; [|done].
    destruct (match_at r pos EmptyString) as [m'|] eqn:Hat; [|done].
    destruct Hm as [<- | []].
    apply match_at_sound in Hat as (t & s' & Hs & Hp & Hst & _).
    exists EmptyString, t, s'. simpl. repeat split; [done | done | lia].
  - destruct skip as [|k]; simpl in Hm.
    + destruct (match_at r pos (String c s)) as [m'|] eqn:Hat.
      * destruct Hm as [<- | Hm].
        -- apply match_at_sound in Hat as (t & s' & Hs & Hp & Hst & _).
           exists EmptyString, t, s'. simpl.
           repeat split; [done | done | lia].
        -- apply Hshift. by eapply IH.
      * apply Hshift. by eapply IH.
    + apply Hshift. by eapply IH.
Qed.

(** Every reference [finditer] reports on a page is a piece of the page of
    the form [![label](path)], label and path on one line, and the groups
    of the match are this label and this path. *)
Lemma image_reference_is_text page m :
  In m (finditer image_reference page) ->
  exists pre post,
    page = pre +:+ "![" +:+ group m 1 +:+ "](" +:+ group m 2 +:+ ")"
           +:+ post
    /\ m_start m = len pre
    /\ one_line (group m 1) = true /\ one_line (group m 2) = true.
Proof.
  intros Hm.
  apply finditer_go_sound in Hm as (pre & t & post & -> & Hp & Hs).
  apply parses_image_reference in Hp as (label & path & -> & Hc & Hl & Hpa).
  unfold group. rewrite Hc. simpl.
  exists pre, post. rewrite !app_assoc_str. done.
Qed.

Lemma one_line_app a b :
  one_line (a +:+ b) = one_line a && one_line b.
Proof.
  unfold one_line. induction a as [|x a IH]; [done|].
  change (String x a +:+ b) with (String x (a +:+ b)). simpl.
  by rewrite IH, andb_assoc.
Qed.

(** A reference the loop visits whose path starts with [http://] or
    [https://] is found by the search for external images. *)
Lemma external_reference_found page m :
  In m (finditer image_reference page) ->
  startswith (group m 2) "http://" = true
  \/ startswith (group m 2) "https://" = true ->
  is_Some (search external_image page).
Proof.
  intros Hm Hs.
  destruct (image_reference_is_text page m Hm)
    as (pre & post & Hp & _ & Hl & Hpa).
  rewrite Hp.
  destruct Hs as [Hs|Hs]; apply startswith_prefix in Hs as [rest Hrest];
    rewrite Hrest in *; rewrite one_line_app in Hpa;
    apply andb_true_iff in Hpa as [_ Hpa].
  - apply (external_image_found pre (group m 1) "http" rest post);
      [by left | done | done].
  - apply (external_image_found pre (group m 1) "https" rest post);
      [by right | done | done].
Qed.

End ReFacts.

(** ** The result dictionary of [inspect_manuscript] *)

Module ManuscriptFacts.
Import PyStr Manuscript Reading.

Lemma with_warnings_snoc d ws x :
  with_warnings d (ws ++ [x]) = <["warnings" := VList (ws ++ [x])]> d.
Proof. destruct ws; reflexivity. Qed.

Lemma append_to_with_warnings d ws x :
  d !! "warnings" = None ->
  append_to (with_warnings d ws) "warnings" x
  = Ret (with_warnings d (ws ++ [x])).
Proof.
  intros Hd. rewrite with_warnings_snoc. unfold append_to, getitem_default.
  destruct ws as [|w ws]; simpl.
  - rewrite Hd. rewrite lookup_insert_eq. by rewrite insert_insert_eq.
  - rewrite !lookup_insert_eq. by rewrite insert_insert_eq.
Qed.

Lemma warn_if_with_warnings d ws c x :
  d !! "warnings" = None ->
  warn_if c x (with_warnings d ws)
  = Ret (with_warnings d (ws ++ if c then [x] else [])).
Proof.
  intros Hd. destruct c; simpl.
  - by apply append_to_with_warnings.
  - by rewrite app_nil_r.
Qed.

(** One pass through the loop: it raises what [exists()] raises on the
    path, and else appends its warnings. *)
Lemma check_reference_with_warnings f markdown d ws m :
  d !! "warnings" = None ->
  check_reference f markdown (with_warnings d ws) m
  = match Fs.path_exists f (Re.group m 2) with
    | Ret _ => Ret (with_warnings d (ws ++ appended_for f markdown m))
    | Raise e => Raise e
    end.
Proof.
  intros Hd. unfold check_reference, appended_for, absent. cbv zeta.
  destruct (Fs.path_exists f (Re.group m 2)) as [found|e]; [|reflexivity].
  cbn [and_then].
  rewrite (warn_if_with_warnings _ _ _ _ Hd). cbn [and_then].
  rewrite (warn_if_with_warnings _ _ _ _ Hd). cbn [and_then].
  rewrite (warn_if_with_warnings _ _ _ _ Hd).
  rewrite <- !app_assoc.
  destruct found, (truthy _), (_ =? 1)%nat; reflexivity.
Qed.

(** The loop: it stops at the first reference [exists()] raises on. *)
Lemma check_references_with_warnings f markdown d ms : forall ws,
  d !! "warnings" = None ->
  check_references f markdown (with_warnings d ws) ms
  = match refs_fault f ms with
    | Some e => Raise e
    | None =>
        Ret (with_warnings d (ws ++ flat_map (appended_for f markdown) ms))
    end.
Proof.
  induction ms as [|m ms IH]; intros ws Hd;
    cbn [check_references refs_fault flat_map].
  - by rewrite app_nil_r.
  - rewrite (check_reference_with_warnings _ _ _ _ _ Hd).
    destruct (Fs.path_exists f (Re.group m 2)) as [found|e]; [|reflexivity].
    cbn [and_then]. rewrite (IH _ Hd). by rewrite <- app_assoc.
Qed.

Lemma refs_fault_none f ms :
  refs_fault f ms = None
  <-> forall m, In m ms -> exists b, Fs.path_exists f (Re.group m 2) = Ret b.
Proof.
  induction ms as [|m ms IH]; cbn [refs_fault].
  - split; [intros _ m []|done].
  - destruct (Fs.path_exists f (Re.group m 2)) as [found|e] eqn:He.
    + rewrite IH. split.
      * intros H m' [<-|Hm']; [by exists found|by apply H].
      * intros H m' Hm'. apply H. by right.
    + split; [done|]. intros H.
      destruct (H m (or_introl eq_refl)) as [b Hb]. congruence.
Qed.


(** The pages are the segments that are not blank. *)
Lemma pages_of_not_blank markdown :
  pages_of markdown
  = List.filter (fun p => negb (blank p)) (split markdown page_delimiter).
Proof.
  unfold pages_of. apply List.filter_ext. intros p.
  apply PyStrFacts.truthy_strip.
Qed.

(** X3.  Line 125 loses no text: the segments joined by the delimiter are
    the document. *)
Theorem segments_rebuild_document (markdown : string) :
  join page_delimiter (split markdown page_delimiter) = markdown.
Proof. apply PyStrFacts.join_split. discriminate. Qed.

(** [exists()] answered [False]. *)
Lemma absent_true f p : absent f p = true <-> Fs.path_exists f p = Ret false.
Proof.
  unfold absent. destruct (Fs.path_exists f p) as [[|]|e]; simpl;
    split; congruence.
Qed.

Lemma read_exists f p content :
  Fs.read f p = Ret content -> Fs.path_exists f p = Ret true.
Proof.
  unfold Fs.read, Fs.path_exists. destruct (f !! p) as [[|c|e]|]; congruence.
Qed.

Lemma getitem_in_range (l : list string) (i : Z) :
  0 <= i < Z.of_nat (length l) ->
  exists x, l !! Z.to_nat i = Some x /\ getitem l i = Ret x.
Proof.
  intros Hi. unfold getitem.
  destruct (Z.ltb_spec i 0) as [?|_]; [lia|].
  destruct (Z.ltb_spec i 0) as [?|_]; [lia|].
  destruct (lookup_lt_is_Some_2 l (Z.to_nat i)) as [x Hx]; [lia|].
  exists x. by rewrite Hx.
Qed.

Lemma page_result_no_warnings page_id total page :
  page_result page_id total page !! "warnings" = None.
Proof. reflexivity. Qed.

Lemma inspect_manuscript_page f md_file page_id markdown :
  Fs.read f md_file = Ret markdown ->
  endswith (lower md_file) ".md" = true ->
  1 <= page_id <= Z.of_nat (length (pages_of markdown)) ->
  exists page,
    pages_of markdown !! Z.to_nat (page_id - 1) = Some page /\
    inspect_manuscript f md_file page_id
    = match refs_fault f (Re.finditer Re.image_reference page) with
      | Some e => Raise e
      | None =>
          Ret (with_warnings
                 (page_result page_id (length (pages_of markdown)) page)
                 (page_warnings f markdown page))
      end.
Proof.
  intros Hread Hmd Hid.
  destruct (getitem_in_range (pages_of markdown) (page_id - 1)) as (page & Hpage & Hget);
    [lia|].
  exists page. split; [done|].
  unfold inspect_manuscript.
  rewrite (read_exists _ _ _ Hread). cbn [and_then]. rewrite Hmd. simpl.
  destruct (Z.ltb_spec page_id 1) as [?|_]; [lia|].
  rewrite Hread. simpl.
  destruct (Z.geb_spec (Z.of_nat (length (pages_of markdown))) page_id) as [_|?]; [|lia].
  simpl. rewrite Hget. simpl.
  fold (page_result page_id (length (pages_of markdown)) page).
  pose proof (page_result_no_warnings page_id (length (pages_of markdown)) page) as Hnw.
  change (page_result page_id (length (pages_of markdown)) page)
    with (with_warnings (page_result page_id (length (pages_of markdown)) page) []) at 1.
  rewrite (warn_if_with_warnings _ _ _ _ Hnw). simpl.
  by rewrite (check_references_with_warnings _ _ _ _ _ Hnw).
Qed.

(** A page that was inspected: the result, and what it took. *)
Lemma inspected_page f md_file page_id markdown page d :
  Fs.read f md_file = Ret markdown ->
  endswith (lower md_file) ".md" = true ->
  1 <= page_id <= Z.of_nat (length (pages_of markdown)) ->
  pages_of markdown !! Z.to_nat (page_id - 1) = Some page ->
  inspect_manuscript f md_file page_id = Ret d ->
  d = with_warnings (page_result page_id (length (pages_of markdown)) page)
        (page_warnings f markdown page)
  /\ refs_fault f (Re.finditer Re.image_reference page) = None.
Proof.
  intros Hread Hmd Hid Hpage Hd.
  destruct (inspect_manuscript_page f md_file page_id markdown Hread Hmd Hid)
    as (page' & Hpage' & Hres).
  assert (page' = page) as -> by congruence.
  rewrite Hres in Hd.
  destruct (refs_fault f (Re.finditer Re.image_reference page));
    [discriminate|].
  by injection Hd as <-.
Qed.

(** It is inspected when [exists()] answers for the path of every
    reference on it. *)
Lemma page_inspected f md_file page_id markdown page :
  Fs.read f md_file = Ret markdown ->
  endswith (lower md_file) ".md" = true ->
  1 <= page_id <= Z.of_nat (length (pages_of markdown)) ->
  pages_of markdown !! Z.to_nat (page_id - 1) = Some page ->
  (forall m, In m (Re.finditer Re.image_reference page) ->
     exists b, Fs.path_exists f (Re.group m 2) = Ret b) ->
  inspect_manuscript f md_file page_id
  = Ret (with_warnings
           (page_result page_id (length (pages_of markdown)) page)
           (page_warnings f markdown page)).
Proof.
  intros Hread Hmd Hid Hpage Hall.
  destruct (inspect_manuscript_page f md_file page_id markdown Hread Hmd Hid)
    as (page' & Hpage' & Hres).
  assert (page' = page) as -> by congruence.
  apply refs_fault_none in Hall. by rewrite Hall in Hres.
Qed.
(** Reading the entries of a result. *)
Lemma warnings_of_with_warnings d ws :
  d !! "warnings" = None -> warnings_of (with_warnings d ws) = ws.
Proof.
  intros Hd. unfold warnings_of. destruct ws as [|w ws]; simpl.
  - by rewrite Hd.
  - by rewrite lookup_insert_eq.
Qed.

Lemma lookup_with_warnings d ws key :
  key <> "warnings" -> with_warnings d ws !! key = d !! key.
Proof.
  intros Hk. destruct ws as [|w ws]; simpl; [done|].
  by rewrite lookup_insert_ne.
Qed.

Lemma lookup_warnings_with_warnings d ws :
  d !! "warnings" = None ->
  with_warnings d ws !! "warnings"
  = match ws with [] => None | _ :: _ => Some (VList ws) end.
Proof.
  intros Hd. destruct ws as [|w ws]; simpl; [done|].
  by rewrite lookup_insert_eq.
Qed.

End ManuscriptFacts.

(** ** The messages are told apart by their endings *)

Module MessageFacts.
Import PyStr Manuscript Tools Reading PyStrFacts.

Lemma ending_file_missing p : ending (file_missing p) = ".g".
Proof.
  unfold ending, file_missing, rev. by rewrite !rev_onto_app.
Qed.

Lemma ending_label_missing p : ending (label_missing p) = ".y".
Proof.
  unfold ending, label_missing, rev. by rewrite !rev_onto_app.
Qed.

Lemma ending_used_n_times l p n : ending (used_n_times l p n) = ".e".
Proof.
  unfold ending, used_n_times, rev. by rewrite !rev_onto_app.
Qed.

Lemma file_missing_not_label p p' : file_missing p <> label_missing p'.
Proof.
  intros H. apply (f_equal ending) in H.
  by rewrite ending_file_missing, ending_label_missing in H.
Qed.

Lemma file_missing_not_used p l p' n : file_missing p <> used_n_times l p' n.
Proof.
  intros H. apply (f_equal ending) in H.
  by rewrite ending_file_missing, ending_used_n_times in H.
Qed.

Lemma label_missing_not_used p l p' n :
  label_missing p <> used_n_times l p' n.
Proof.
  intros H. apply (f_equal ending) in H.
  by rewrite ending_label_missing, ending_used_n_times in H.
Qed.

(** No pass through the loop appends the external-image warning. *)
Lemma external_not_appended f markdown m :
  ~ In external_links_detected (appended_for f markdown m).
Proof.
  unfold appended_for. intros H.
  assert (He : ending external_links_detected = ".s") by reflexivity.
  repeat (apply in_app_or in H as [H|H]);
    [destruct (absent _ _) | destruct (truthy _)
    | destruct (_ =? 1)%nat]; try done;
    destruct H as [H|[]]; rewrite <- H in He.
  - by rewrite ending_file_missing in He.
  - by rewrite ending_label_missing in He.
  - by rewrite ending_used_n_times in He.
Qed.

(** The four error messages of [inspect_manuscript] differ, whatever the
    file name. *)
Lemma error_messages_distinct md md' :
  file_does_not_exist md <> not_a_markdown_file md'
  /\ file_does_not_exist md <> page_id_not_positive
  /\ file_does_not_exist md <> page_id_exceeds
  /\ not_a_markdown_file md <> page_id_not_positive
  /\ not_a_markdown_file md <> page_id_exceeds
  /\ page_id_not_positive <> page_id_exceeds.
Proof.
  unfold file_does_not_exist, not_a_markdown_file, page_id_not_positive,
    page_id_exceeds.
  repeat split; intros H; cbv [String.append] in H; discriminate H.
Qed.

(** The messages of [download_file] differ from their first character on. *)
Lemma not_an_image_not_failed e url : not_an_image e <> download_failed url.
Proof.
  unfold not_an_image, download_failed. intros H.
  cbv [String.append] in H. discriminate H.
Qed.

Lemma downloaded_not_failed output_path rest url :
  downloaded output_path +:+ rest <> download_failed url.
Proof.
  unfold downloaded, download_failed. intros H.
  cbv [String.append] in H. discriminate H.
Qed.

End MessageFacts.

(** ** The retry loop of [download_file] *)

Module DownloadFacts.
Import PyStr Tools Reading.

Lemma attempt_fails env i url out w :
  completes (http_attempt env i url out) = false ->
  exists f',
    one_try env i url out w
    = (Ret false, {| fs := f'; trace := trace w ++ attempt_events url i |}).
Proof.
  intros H. unfold one_try, Call.try_except, Call.bind, attempt_body,
    Call.emit, Call.get_fs, Call.put_fs, Call.raise, Call.ret. simpl.
  destruct (http_attempt env i url out) as [e|written e|body]; simpl in *;
    try discriminate; eexists; rewrite <- app_assoc; reflexivity.
Qed.

Lemma attempt_completes env i url out body w :
  http_attempt env i url out = Completes body ->
  one_try env i url out w
  = (Ret true, {| fs := <[out := File body]> (fs w);
                  trace := trace w ++ attempt_events url i |}).
Proof.
  intros H. unfold one_try, Call.try_except, Call.bind, attempt_body,
    Call.emit, Call.get_fs, Call.put_fs, Call.raise, Call.ret. simpl.
  rewrite H. simpl. by rewrite <- app_assoc.
Qed.

Lemma retry_loop_cons env url out i rest w :
  retry_loop env url out (i :: rest) w
  = match one_try env i url out w with
    | (Ret true, w') => (Ret true, w')
    | (Ret false, w') => retry_loop env url out rest w'
    | (Raise e, w') => (Raise e, w')
    end.
Proof.
  simpl. unfold Call.bind at 1. fold (one_try env i url out).
  destruct (one_try env i url out w) as [[[]|e] w']; reflexivity.
Qed.

(** When no attempt completes, the loop runs through all of them and ends
    in its [else] branch. *)
Lemma retry_loop_exhausted env url out retries : forall w,
  (forall i, In i retries -> completes (http_attempt env i url out) = false) ->
  exists f',
    retry_loop env url out retries w
    = (Ret false,
       {| fs := f'; trace := trace w ++ attempts_events url retries |}).
Proof.
  induction retries as [|i rest IH]; intros w Hall.
  - exists (fs w). simpl. unfold Call.ret. rewrite app_nil_r. by destruct w.
  - rewrite retry_loop_cons.
    destruct (attempt_fails env i url out w) as [f1 ->];
      [apply Hall; by left|].
    destruct (IH {| fs := f1; trace := trace w ++ attempt_events url i |})
      as [f' ->].
    { intros j Hj. apply Hall. by right. }
    exists f'. simpl. by rewrite <- app_assoc.
Qed.

(** When an attempt completes after failed ones, the loop stops there, and
    the output file holds the body received. *)
Lemma retry_loop_breaks env url out before i after body : forall w,
  (forall j, In j before -> completes (http_attempt env j url out) = false) ->
  http_attempt env i url out = Completes body ->
  exists f',
    retry_loop env url out (before ++ i :: after) w
    = (Ret true,
       {| fs := <[out := File body]> f';
          trace := trace w ++ attempts_events url (before ++ [i]) |}).
Proof.
  induction before as [|j before IH]; intros w Hall Hi.
  - exists (fs w). simpl app. rewrite retry_loop_cons.
    rewrite (attempt_completes _ _ _ _ _ _ Hi). reflexivity.
  - simpl app. rewrite retry_loop_cons.
    destruct (attempt_fails env j url out w) as [f1 ->];
      [apply Hall; by left|].
    destruct (IH {| fs := f1; trace := trace w ++ attempt_events url j |})
      as [f' ->]; [intros k Hk; apply Hall; by right | done |].
    exists f'. simpl. by rewrite <- app_assoc.
Qed.

(** The first index of [seq] that satisfies a test. *)
Lemma find_seq (P : nat -> bool) n : forall start i,
  List.find P (seq start n) = Some i ->
  (start <= i < start + n)%nat /\ P i = true
  /\ forall j, (start <= j < i)%nat -> P j = false.
Proof.
  induction n as [|n IH]; intros start i H; simpl in H; [discriminate|].
  destruct (P start) eqn:Hs.
  - injection H as <-. repeat split; [lia | lia | done | intros j ?; lia].
  - destruct (IH _ _ H) as (Hr & Hi & Hb). repeat split; [lia | lia | done |].
    intros j Hj. destruct (decide (j = start)) as [->|]; [done|].
    apply Hb. lia.
Qed.

Lemma find_seq_none (P : nat -> bool) n start :
  List.find P (seq start n) = None ->
  forall j, In j (seq start n) -> P j = false.
Proof. intros H j Hj. exact (find_none P _ H j Hj). Qed.

Lemma seq_cut i n :
  (i < n)%nat -> seq 0 n = seq 0 i ++ i :: seq (S i) (n - S i).
Proof.
  intros H. replace n with (i + S (n - S i))%nat at 1 by lia.
  by rewrite seq_app.
Qed.

Lemma attempts_events_seq_S url i :
  attempts_events url (seq 0 i ++ [i]) = attempts_events url (seq 0 (S i)).
Proof. by rewrite seq_S. Qed.

Lemma count_gets url retries :
  length (List.filter is_get (attempts_events url retries)) = length retries.
Proof. induction retries as [|i l IH]; simpl; [done|]. by rewrite IH. Qed.

(** The loop of [download_file], for a first completed attempt [i]. *)
Lemma retry_loop_first_success env url out i body w :
  (i < RETRY_TIMES env)%nat ->
  (forall j, (j < i)%nat -> completes (http_attempt env j url out) = false) ->
  http_attempt env i url out = Completes body ->
  exists f',
    retry_loop env url out (seq 0 (RETRY_TIMES env)) w
    = (Ret true,
       {| fs := <[out := File body]> f';
          trace := trace w ++ attempts_events url (seq 0 (S i)) |}).
Proof.
  intros Hi Hbefore Hok. rewrite (seq_cut i _ Hi).
  destruct (retry_loop_breaks env url out (seq 0 i) i
              (seq (S i) (RETRY_TIMES env - S i)) body w) as [f' ->]; [|done|].
  { intros j Hj. apply Hbefore. apply in_seq in Hj. lia. }
  exists f'. by rewrite attempts_events_seq_S.
Qed.

(** [download_file] after the parent directory was made. *)
Lemma download_file_after_mkdir env url out w f1 :
  mkdir_parent env out (fs w) = (Ret tt, f1) ->
  download_file env url out w
  = match retry_loop env url out (seq 0 (RETRY_TIMES env))
            {| fs := f1; trace := trace w ++ [EvMkdirParent out] |} with
    | (Ret false, w2) => (Ret (download_failed url), w2)
    | (Ret true, w2) =>
        if endswith_any (lower out) image_extensions
        then
          match Fs.read (fs w2) out with
          | Ret content =>
              match image_size env content with
              | Ret size =>
                  (Ret (downloaded out +:+ resolution (fst size) (snd size)),
                   w2)
              | Raise e => (Ret (not_an_image e), w2)
              end
          | Raise e => (Ret (not_an_image e), w2)
          end
        else (Ret (downloaded out), w2)
    | (Raise e, w2) => (Raise e, w2)
    end.
Proof.
  intros Hmk. unfold download_file, Call.bind, Call.emit, Call.external.
  cbn [fs trace]. rewrite Hmk. cbn [fst snd].
  destruct (retry_loop _ _ _ _ _) as [[[]|e] w2]; try reflexivity.
  cbn [negb]. destruct (endswith_any (lower out) image_extensions);
    [|reflexivity].
  unfold Call.try_except, image_open_size, Call.bind, Call.get_fs,
    Call.of_outcome, Call.ret.
  destruct (Fs.read (fs w2) out) as [content|e]; [|reflexivity].
  destruct (image_size env content); reflexivity.
Qed.

(** The loop never raises. *)
Lemma retry_loop_returns env url out retries : forall w,
  exists b w', retry_loop env url out retries w = (Ret b, w').
Proof.
  induction retries as [|i rest IH]; intros w.
  - by exists false, w.
  - rewrite retry_loop_cons.
    destruct (completes (http_attempt env i url out)) eqn:Hc.
    + destruct (http_attempt env i url out) as [| |body] eqn:Ha;
        try discriminate.
      rewrite (attempt_completes _ _ _ _ _ _ Ha). by eexists _, _.
    + destruct (attempt_fails env i url out w Hc) as [f' ->]. apply IH.
Qed.

End DownloadFacts.

(** ** The paths through [inspect_slide] *)

Module SlideFacts.
Import PyStr Tools Reading.

(** Line 88 stands before the [try]: what [exists()] raises there reaches
    the caller, and no external call was made. *)
Lemma inspect_slide_unanswered env html_file aspect_ratio w e :
  Fs.path_exists (fs w) (absolute env html_file) = Raise e ->
  inspect_slide env html_file aspect_ratio w = (Raise e, w).
Proof.
  intros He. unfold inspect_slide, Call.bind, Call.get_fs, Call.of_outcome.
  cbv zeta. by rewrite He.
Qed.

Lemma inspect_slide_not_html env html_file aspect_ratio w found :
  Fs.path_exists (fs w) (absolute env html_file) = Ret found ->
  found && String.eqb (Fs.suffix (absolute env html_file)) ".html" = false ->
  inspect_slide env html_file aspect_ratio w
  = (Ret (SlideText (not_html (absolute env html_file))), w).
Proof.
  intros He H. unfold inspect_slide, Call.bind, Call.get_fs, Call.of_outcome.
  cbv zeta. rewrite He. cbv beta iota. by rewrite H.
Qed.

Lemma html_path_ok_true f html_file :
  html_path_ok f html_file = true
  <-> Fs.path_exists f html_file = Ret true
      /\ Fs.suffix html_file = ".html".
Proof.
  unfold html_path_ok.
  destruct (Fs.path_exists f html_file) as [[|]|e]; simpl;
    rewrite ?String.eqb_eq; split; try done; try tauto.
  - by intros [? ?].
  - by intros [? ?].
Qed.

Lemma inspect_slide_bad_ratio env html_file aspect_ratio w :
  html_path_ok (fs w) (absolute env html_file) = true ->
  str_in aspect_ratio aspect_ratios = false ->
  inspect_slide env html_file aspect_ratio w
  = (Ret (SlideText bad_aspect_ratio), w).
Proof.
  intros H Hr. apply html_path_ok_true in H as [He Hs].
  unfold inspect_slide, Call.bind, Call.get_fs, Call.of_outcome.
  cbv zeta. rewrite He. cbv beta iota. rewrite Hs, Hr. reflexivity.
Qed.

(** Past the two checks, the result is what the [try] gives, an exception
    turned into a returned object. *)
Lemma inspect_slide_checked env html_file aspect_ratio w :
  html_path_ok (fs w) (absolute env html_file) = true ->
  str_in aspect_ratio aspect_ratios = true ->
  inspect_slide env html_file aspect_ratio w
  = match inspect_slide_body env (absolute env html_file) aspect_ratio w with
    | (Ret v, w') => (Ret v, w')
    | (Raise e, w') => (Ret (SlideException e), w')
    end.
Proof.
  intros H Hr. apply html_path_ok_true in H as [He Hs].
  unfold inspect_slide, Call.bind, Call.get_fs, Call.of_outcome.
  cbv zeta. rewrite He. cbv beta iota. rewrite Hs, Hr. reflexivity.
Qed.



(** What the converter wrote before raising stays on disk. *)
Lemma body_conversion_raises env html_file aspect_ratio w e f1 :
  convert_html_to_pptx env html_file aspect_ratio (fs w) = (Raise e, f1) ->
  inspect_slide_body env html_file aspect_ratio w
  = (Raise e,
     {| fs := f1;
        trace := trace w ++ [EvConvertHtml html_file aspect_ratio] |}).
Proof.
  intros Hc.
  unfold inspect_slide_body, Call.bind, Call.emit, Call.external.
  cbn [fs trace]. by rewrite Hc.
Qed.



End SlideFacts.

(** ** Every way [inspect_manuscript] can end *)

Module ManuscriptCases.
Import PyStr Manuscript Reading ManuscriptFacts.

(** Line 118 stands outside any [try]: what [exists()] raises on the file
    reaches the caller. *)
Lemma inspect_manuscript_unanswered f md_file page_id e :
  Fs.path_exists f md_file = Raise e ->
  inspect_manuscript f md_file page_id = Raise e.
Proof. intros H. unfold inspect_manuscript. by rewrite H. Qed.

Lemma inspect_manuscript_missing f md_file page_id :
  Fs.path_exists f md_file = Ret false ->
  inspect_manuscript f md_file page_id
  = Ret (error (file_does_not_exist md_file)).
Proof. intros H. unfold inspect_manuscript. by rewrite H. Qed.

Lemma inspect_manuscript_not_md f md_file page_id :
  Fs.path_exists f md_file = Ret true ->
  endswith (lower md_file) ".md" = false ->
  inspect_manuscript f md_file page_id
  = Ret (error (not_a_markdown_file md_file)).
Proof.
  intros H H'. unfold inspect_manuscript. rewrite H. cbn [and_then negb].
  by rewrite H'.
Qed.

Lemma inspect_manuscript_not_positive f md_file page_id :
  Fs.path_exists f md_file = Ret true ->
  endswith (lower md_file) ".md" = true ->
  page_id < 1 ->
  inspect_manuscript f md_file page_id = Ret (error page_id_not_positive).
Proof.
  intros H H' Hid. unfold inspect_manuscript. rewrite H. cbn [and_then negb].
  rewrite H'. simpl.
  by destruct (Z.ltb_spec page_id 1); [|lia].
Qed.

Lemma inspect_manuscript_unreadable f md_file page_id e :
  Fs.read f md_file = Raise e ->
  Fs.path_exists f md_file = Ret true ->
  endswith (lower md_file) ".md" = true ->
  1 <= page_id ->
  inspect_manuscript f md_file page_id = Raise e.
Proof.
  intros Hr H H' Hid. unfold inspect_manuscript. rewrite H.
  cbn [and_then negb]. rewrite H'. simpl.
  destruct (Z.ltb_spec page_id 1); [lia|]. by rewrite Hr.
Qed.

Lemma inspect_manuscript_exceeds f md_file page_id markdown :
  Fs.read f md_file = Ret markdown ->
  endswith (lower md_file) ".md" = true ->
  1 <= page_id ->
  Z.of_nat (length (pages_of markdown)) < page_id ->
  inspect_manuscript f md_file page_id = Ret (error page_id_exceeds).
Proof.
  intros Hr H' Hid Hn. unfold inspect_manuscript.
  rewrite (read_exists _ _ _ Hr). cbn [and_then negb]. rewrite H'. simpl.
  destruct (Z.ltb_spec page_id 1); [lia|]. rewrite Hr. simpl.
  by destruct (Z.geb_spec (Z.of_nat (length (pages_of markdown))) page_id);
    [lia|].
Qed.

Lemma inspect_manuscript_ending f md_file page_id :
  ending_of f md_file page_id (inspect_manuscript f md_file page_id).
Proof.
  destruct (Fs.path_exists f md_file) as [[|]|e] eqn:He.
  3: { rewrite (inspect_manuscript_unanswered _ _ _ e) by done.
       by apply ends_unanswered. }
  2: { rewrite inspect_manuscript_missing by done. by apply ends_missing. }
  destruct (endswith (lower md_file) ".md") eqn:Hmd.
  2: { rewrite inspect_manuscript_not_md by done. by apply ends_not_md. }
  destruct (Z.lt_ge_cases page_id 1) as [Hlt|Hge].
  { rewrite inspect_manuscript_not_positive by done.
    by apply ends_not_positive. }
  destruct (Fs.read f md_file) as [markdown|e] eqn:Hr.
  2: { rewrite (inspect_manuscript_unreadable _ _ _ e) by done.
       by apply ends_unreadable. }
  destruct (Z.lt_ge_cases (Z.of_nat (length (pages_of markdown))) page_id)
    as [Hex|Hin].
  { rewrite (inspect_manuscript_exceeds _ _ _ markdown) by done.
    by eapply ends_exceeds. }
  destruct (inspect_manuscript_page f md_file page_id markdown)
    as (page & Hpage & ->); [done | done | lia |].
  destruct (refs_fault f (Re.finditer Re.image_reference page)) as [e|]
    eqn:Hf.
  - eapply ends_reference; [done | lia | done | done].
  - eapply ends_page; [done | lia | done | done].
Qed.


Lemma page_result_lookup_error page_id total page ws :
  with_warnings (page_result page_id total page) ws !! "error" = None.
Proof. by rewrite lookup_with_warnings. Qed.

End ManuscriptCases.

(** * [inspect_manuscript] against its specification *)

Module ManuscriptSpec.
Import PyStr Manuscript Reading ManuscriptFacts ManuscriptCases.

(** A dictionary that holds an error holds nothing of a page. *)
Lemma error_only f md_file page_id d :
  inspect_manuscript f md_file page_id = Ret d ->
  is_Some (d !! "error") ->
  exists msg, d = error msg.
Proof.
  intros Hd He. pose proof (inspect_manuscript_ending f md_file page_id) as E.
  rewrite Hd in E. inversion E; subst; try by eexists.
  rewrite page_result_lookup_error in He. by destruct He.
Qed.

(** C2, counterexample.  The specification has every failed validation end
    in an error value.  The first validation, line 118, stands outside any
    [try], and [Path.exists] raises the [OSError] of a name too long: for a
    file that does not exist under such a name the call raises, and
    returns no error value. *)
Lemma validation_raises :
  inspect_manuscript Scenario.strict (Scenario.long_name +:+ ".md") 1
  = Raise (Scenario.NameTooLong (Scenario.long_name +:+ ".md")).
Proof. vm_compute. reflexivity. Qed.

(** C2, as amended.  When [exists()] answers for the file,
    [inspect_manuscript] checks, in this order, that the file exists, that
    its name ends in [.md], that the page number is at least 1 and that it
    is at most the number of pages (the segments between the delimiters
    that are not blank).  The first check that fails decides the result, an
    error of its own; the four messages differ; a result that holds an error
    holds no [page_id], [page_content] or [warnings]; a page number above
    the page count of a readable document always gives an error; and the
    pages are the segments of the split that are not empty or whitespace.
    When [exists()] raises on the file, the call raises the same. *)
Theorem validations_in_order (f : gmap string node) (md_file : string)
    (page_id : Z) :
  (Fs.path_exists f md_file = Ret false ->
   inspect_manuscript f md_file page_id
   = Ret (error (file_does_not_exist md_file)))
  /\ (Fs.path_exists f md_file = Ret true ->
      endswith (lower md_file) ".md" = false ->
      inspect_manuscript f md_file page_id
      = Ret (error (not_a_markdown_file md_file)))
  /\ (Fs.path_exists f md_file = Ret true ->
      endswith (lower md_file) ".md" = true ->
      page_id < 1 ->
      inspect_manuscript f md_file page_id
      = Ret (error page_id_not_positive))
  /\ (forall markdown,
        Fs.read f md_file = Ret markdown ->
        endswith (lower md_file) ".md" = true ->
        1 <= page_id ->
        Z.of_nat (length (pages_of markdown)) < page_id ->
        inspect_manuscript f md_file page_id = Ret (error page_id_exceeds))
  /\ (file_does_not_exist md_file <> not_a_markdown_file md_file
      /\ file_does_not_exist md_file <> page_id_not_positive
      /\ file_does_not_exist md_file <> page_id_exceeds
      /\ not_a_markdown_file md_file <> page_id_not_positive
      /\ not_a_markdown_file md_file <> page_id_exceeds
      /\ page_id_not_positive <> page_id_exceeds)
  /\ (forall d,
        inspect_manuscript f md_file page_id = Ret d ->
        is_Some (d !! "error") ->
        d !! "page_id" = None /\ d !! "page_content" = None
        /\ d !! "warnings" = None)
  /\ (forall markdown,
        Fs.read f md_file = Ret markdown ->
        Z.of_nat (length (pages_of markdown)) < page_id ->
        exists msg, inspect_manuscript f md_file page_id = Ret (error msg))
  /\ (forall markdown,
        pages_of markdown
        = List.filter (fun p => negb (blank p))
            (split markdown page_delimiter))
  /\ (forall e,
        Fs.path_exists f md_file = Raise e ->
        inspect_manuscript f md_file page_id = Raise e).
Proof.
  split; [apply inspect_manuscript_missing|].
  split; [apply inspect_manuscript_not_md|].
  split; [apply inspect_manuscript_not_positive|].
  split; [apply inspect_manuscript_exceeds|].
  split; [apply MessageFacts.error_messages_distinct|].
  split.
  { intros d Hd He. destruct (error_only _ _ _ _ Hd He) as [msg ->].
    unfold error. by rewrite !lookup_singleton_ne. }
  split.
  { intros markdown Hr Hn.
    pose proof (read_exists _ _ _ Hr) as Hex.
    pose proof (inspect_manuscript_ending f md_file page_id) as E.
    inversion E as [ e He | | | | e He Hr' | | markdown' page e Hr' Hid
                   | markdown' page Hr' Hid ];
      try by eexists.
    - congruence.
    - congruence.
    - rewrite Hr in Hr'. injection Hr' as <-. lia.
    - rewrite Hr in Hr'. injection Hr' as <-. lia. }
  split; [apply pages_of_not_blank|].
  intros e. apply inspect_manuscript_unanswered.
Qed.

(** C2, on the two-page document of [Scenario]: page 3 is refused. *)
Lemma validations_in_order_witness :
  inspect_manuscript Scenario.disk "talk.md" 3 = Ret (error page_id_exceeds).
Proof.
  destruct (validations_in_order Scenario.disk "talk.md" 3)
    as (_ & _ & _ & H & _).
  apply (H Scenario.talk); [reflexivity | reflexivity | lia |].
  vm_compute. reflexivity.
Defined.

(** The entries of the result for a page. *)
Lemma page_entries page_id total page ws :
  with_warnings (page_result page_id total page) ws !! "page_content"
  = Some (VStr page)
  /\ with_warnings (page_result page_id total page) ws !! "page_id"
     = Some (VStr (format_02d page_id +:+ "/"
                   +:+ format_02d (Z.of_nat total)))
  /\ warnings_of (with_warnings (page_result page_id total page) ws) = ws.
Proof.
  rewrite !lookup_with_warnings by done.
  rewrite warnings_of_with_warnings by done. done.
Qed.

(** C3, counterexample.  The specification has page 2 of every document of
    two blocks inspected successfully.  Line 143 stands outside any [try]:
    on the document of two blocks whose second block refers to an image by
    a name too long, [Path.exists] raises and so does the call. *)
Lemma second_page_raises :
  Fs.read Scenario.strict "overlong.md" = Ret Scenario.overlong
  /\ pages_of Scenario.overlong
     = ["# One"; "![x](" +:+ Scenario.long_name +:+ ")"]
  /\ inspect_manuscript Scenario.strict "overlong.md" 2
     = Raise (Scenario.NameTooLong Scenario.long_name).
Proof. repeat split; vm_compute; reflexivity. Qed.

(** C3, as amended.  For a readable markdown file: when the document splits
    into exactly two non-blank blocks, page 2 is inspected successfully
    whenever [exists()] answers for the path of every image reference of
    the second block, and whenever it is inspected successfully its
    [page_content] is the second block as it stands and its [page_id] is
    [02/02]; and for every page in range, likewise, [page_id] is the page
    number and the page count, each zero-padded to two digits, with a slash
    between. *)
Theorem second_of_two_pages (f : gmap string node) (md_file markdown : string) :
  Fs.read f md_file = Ret markdown ->
  endswith (lower md_file) ".md" = true ->
  (forall b1 b2,
     pages_of markdown = [b1; b2] ->
     ((forall m, In m (Re.finditer Re.image_reference b2) ->
         exists b, Fs.path_exists f (Re.group m 2) = Ret b) ->
      exists d, inspect_manuscript f md_file 2 = Ret d)
     /\ (forall d,
           inspect_manuscript f md_file 2 = Ret d ->
           d !! "page_content" = Some (VStr b2)
           /\ d !! "page_id" = Some (VStr "02/02")))
  /\ (forall page_id,
        1 <= page_id <= Z.of_nat (length (pages_of markdown)) ->
        exists page,
          pages_of markdown !! Z.to_nat (page_id - 1) = Some page
          /\ ((forall m, In m (Re.finditer Re.image_reference page) ->
                 exists b, Fs.path_exists f (Re.group m 2) = Ret b) ->
              exists d, inspect_manuscript f md_file page_id = Ret d)
          /\ (forall d,
                inspect_manuscript f md_file page_id = Ret d ->
                d !! "page_content" = Some (VStr page)
                /\ d !! "page_id"
                   = Some (VStr (two_digits page_id +:+ "/"
                                 +:+ two_digits
                                       (Z.of_nat
                                          (length (pages_of markdown))))))).
Proof.
  intros Hr Hmd.
  assert (Hgen : forall page_id,
            1 <= page_id <= Z.of_nat (length (pages_of markdown)) ->
            exists page,
              pages_of markdown !! Z.to_nat (page_id - 1) = Some page
              /\ ((forall m, In m (Re.finditer Re.image_reference page) ->
                     exists b, Fs.path_exists f (Re.group m 2) = Ret b) ->
                  exists d, inspect_manuscript f md_file page_id = Ret d)
              /\ (forall d,
                    inspect_manuscript f md_file page_id = Ret d ->
                    d !! "page_content" = Some (VStr page)
                    /\ d !! "page_id"
                       = Some (VStr (two_digits page_id +:+ "/"
                                     +:+ two_digits
                                           (Z.of_nat
                                              (length
                                                 (pages_of markdown))))))).
  { intros page_id Hid.
    destruct (getitem_in_range (pages_of markdown) (page_id - 1))
      as (page & Hpage & _); [lia|].
    exists page. split; [exact Hpage|]. split.
    - intros Hall. eexists.
      exact (page_inspected f md_file page_id markdown page Hr Hmd Hid
               Hpage Hall).
    - intros d Hd.
      destruct (inspected_page f md_file page_id markdown page d
                  Hr Hmd Hid Hpage Hd) as [-> _].
      destruct (page_entries page_id (length (pages_of markdown)) page
                  (page_warnings f markdown page)) as (Hc & Hi & _).
      split; [exact Hc|]. rewrite Hi.
      by rewrite !PyStrFacts.format_02d_two_digits by lia. }
  split; [|exact Hgen].
  intros b1 b2 Hpages.
  destruct (Hgen 2) as (page & Hpage & Hret & Hfields).
  { rewrite Hpages. simpl. lia. }
  rewrite Hpages in Hpage, Hfields. simpl in Hpage. injection Hpage as <-.
  split; [exact Hret|]. intros d Hd. exact (Hfields d Hd).
Qed.

(** C3, on the two-page document of [Scenario]. *)
Lemma second_of_two_pages_witness :
  exists d,
    inspect_manuscript Scenario.disk "talk.md" 2 = Ret d
    /\ d !! "page_content"
       = Some (VStr ("# Results" +:+ Scenario.nl
                     +:+ "![](http://example.com/x.png)" +:+ Scenario.nl
                     +:+ "![again](fig/a.png) ![alt](missing.png)"))
    /\ d !! "page_id" = Some (VStr "02/02").
Proof.
  destruct (proj1 (second_of_two_pages Scenario.disk "talk.md" Scenario.talk
                     eq_refl eq_refl)
              ("# Intro" +:+ Scenario.nl +:+ "![chart](fig/a.png)")
              ("# Results" +:+ Scenario.nl
               +:+ "![](http://example.com/x.png)" +:+ Scenario.nl
               +:+ "![again](fig/a.png) ![alt](missing.png)"))
    as [Hret Hfields]; [vm_compute; reflexivity|].
  destruct Hret as [d Hd].
  { intros m Hm. vm_compute in Hm.
    destruct Hm as [<-|[<-|[<-|[]]]]; eexists; vm_compute; reflexivity. }
  exists d. split; [exact Hd|]. exact (Hfields d Hd).
Defined.

Lemma flat_map_all_nil {A B} (g : A -> list B) (l : list A) :
  (forall x, In x l -> g x = []) -> flat_map g l = [].
Proof.
  induction l as [|x l IH]; intros H; simpl; [done|].
  rewrite (H x) by by left. apply IH. intros y Hy. apply H. by right.
Qed.

(** C10.  On a page that is inspected successfully: when the page gives no
    warning (the search for an external image finds nothing, and every
    image reference has an existing file, a label that is not blank and a
    path that occurs exactly once in the document), the result holds the
    keys [page_id] and [page_content] and no key [warnings].  In general
    the key [warnings] is there exactly when a warning was appended. *)
Theorem no_warning_no_key (f : gmap string node) (md_file markdown : string)
    (page_id : Z) (page : string) (d : gmap string pyval) :
  Fs.read f md_file = Ret markdown ->
  endswith (lower md_file) ".md" = true ->
  1 <= page_id <= Z.of_nat (length (pages_of markdown)) ->
  pages_of markdown !! Z.to_nat (page_id - 1) = Some page ->
  inspect_manuscript f md_file page_id = Ret d ->
  (Re.search Re.external_image page = None ->
   (forall m, In m (Re.finditer Re.image_reference page) ->
      Fs.path_exists f (Re.group m 2) = Ret true
      /\ truthy (strip (Re.group m 1)) = true
      /\ count markdown (Re.group m 2) = 1%nat) ->
   d !! "warnings" = None
   /\ dom d = {[ "page_id"; "page_content" ]})
  /\ (d !! "warnings" = None <-> page_warnings f markdown page = [])
  /\ (forall ws, d !! "warnings" = Some (VList ws) ->
        ws = page_warnings f markdown page /\ ws <> []).
Proof.
  intros Hr Hmd Hid Hpage Hd.
  destruct (inspected_page f md_file page_id markdown page d
              Hr Hmd Hid Hpage Hd) as [-> _].
  set (base := page_result page_id (length (pages_of markdown)) page).
  assert (Hlook : with_warnings base (page_warnings f markdown page)
                    !! "warnings"
                  = match page_warnings f markdown page with
                    | [] => None
                    | _ :: _ => Some (VList (page_warnings f markdown page))
                    end)
    by by apply lookup_warnings_with_warnings.
  split; [|split].
  - intros Hs Hrefs.
    assert (Hnone : page_warnings f markdown page = []).
    { unfold page_warnings. rewrite Hs. rewrite bool_decide_eq_false_2.
      2: { intros [x Hx]. discriminate. }
      simpl. apply flat_map_all_nil. intros m Hm.
      destruct (Hrefs m Hm) as (H1 & H2 & H3).
      unfold appended_for, absent. by rewrite H1, H2, H3. }
    rewrite Hnone. simpl. split; [done|].
    unfold base, page_result. rewrite !dom_insert_L, dom_empty_L.
    set_solver.
  - rewrite Hlook. destruct (page_warnings f markdown page); split; done.
  - intros ws Hws. rewrite Hlook in Hws.
    destruct (page_warnings f markdown page) eqn:E; [done|].
    injection Hws as <-. done.
Qed.

(** C10, on the one-page document of [Scenario]. *)
Lemma no_warning_no_key_witness :
  exists d,
    inspect_manuscript Scenario.disk "clean.md" 1 = Ret d
    /\ d !! "warnings" = None
    /\ dom d = {[ "page_id"; "page_content" ]}.
Proof.
  destruct (inspect_manuscript Scenario.disk "clean.md" 1) as [d|e] eqn:Hd;
    [|vm_compute in Hd; discriminate].
  exists d. split; [reflexivity|].
  assert (Hid : 1 <= 1 <= Z.of_nat (length (pages_of Scenario.clean)))
    by (vm_compute; split; discriminate).
  destruct (no_warning_no_key Scenario.disk "clean.md" Scenario.clean 1
              Scenario.clean d eq_refl eq_refl Hid eq_refl Hd)
    as (Hnone & _).
  apply Hnone; [reflexivity|].
  intros m Hm. vm_compute in Hm. destruct Hm as [<- | []].
  vm_compute. done.
Defined.

(** C4.  On a page that is inspected successfully: the warnings are, in
    this order, the external-image warning when the search for an external
    image reference succeeds, then what each match of the image-reference
    pattern appends, match after match from left to right, nothing removed;
    the external-image warning is none of the latter; every image reference
    the loop visits whose path starts with [http://] or [https://] makes
    the external-image warning one of the warnings; and this warning is
    there exactly when the page holds a text [![label](url)], label and
    URL each on one line, whose URL starts with [http://] or
    [https://]. *)
Theorem external_images_flagged (f : gmap string node)
    (md_file markdown : string) (page_id : Z) (page : string)
    (d : gmap string pyval) :
  Fs.read f md_file = Ret markdown ->
  endswith (lower md_file) ".md" = true ->
  1 <= page_id <= Z.of_nat (length (pages_of markdown)) ->
  pages_of markdown !! Z.to_nat (page_id - 1) = Some page ->
  inspect_manuscript f md_file page_id = Ret d ->
  warnings_of d
  = (if bool_decide (is_Some (Re.search Re.external_image page))
     then [external_links_detected] else [])
    ++ flat_map (appended_for f markdown)
         (Re.finditer Re.image_reference page)
  /\ ~ In external_links_detected
         (flat_map (appended_for f markdown)
            (Re.finditer Re.image_reference page))
  /\ (forall m,
        In m (Re.finditer Re.image_reference page) ->
        startswith (Re.group m 2) "http://" = true
        \/ startswith (Re.group m 2) "https://" = true ->
        In external_links_detected (warnings_of d))
  /\ (In external_links_detected (warnings_of d)
      <-> exists pre label scheme rest post,
            page = pre +:+ "![" +:+ label +:+ "](" +:+ scheme +:+ "://"
                   +:+ rest +:+ ")" +:+ post
            /\ (scheme = "http" \/ scheme = "https")
            /\ one_line label = true /\ one_line rest = true).
Proof.
  intros Hr Hmd Hid Hpage Hd.
  destruct (inspected_page f md_file page_id markdown page d
              Hr Hmd Hid Hpage Hd) as [-> _].
  destruct (page_entries page_id (length (pages_of markdown)) page
              (page_warnings f markdown page)) as (_ & _ & Hw).
  rewrite Hw.
  assert (Hnot : ~ In external_links_detected
                     (flat_map (appended_for f markdown)
                        (Re.finditer Re.image_reference page))).
  { intros Hin. apply in_flat_map in Hin as (m & _ & Hin).
    by apply MessageFacts.external_not_appended in Hin. }
  split; [reflexivity|]. split; [exact Hnot|].
  split.
  { intros m Hm Hs. unfold page_warnings.
    rewrite bool_decide_eq_true_2
      by by apply (ReFacts.external_reference_found page m).
    by left. }
  rewrite <- ReFacts.external_image_search. unfold page_warnings.
  destruct (bool_decide (is_Some (Re.search Re.external_image page)))
    eqn:Hs.
  - apply bool_decide_eq_true_1 in Hs. split; [done | by left].
  - apply bool_decide_eq_false_1 in Hs. split; [|done].
    intros Hin. by apply Hnot in Hin.
Qed.

(** C4, on page 2 of the two-page document of [Scenario]: the external
    reference stands after a heading and before two local references. *)
Lemma external_images_flagged_witness :
  exists d,
    inspect_manuscript Scenario.disk "talk.md" 2 = Ret d
    /\ In external_links_detected (warnings_of d).
Proof.
  destruct (inspect_manuscript Scenario.disk "talk.md" 2) as [d|e] eqn:Hd;
    [|vm_compute in Hd; discriminate].
  exists d. split; [reflexivity|].
  assert (Hid : 1 <= 2 <= Z.of_nat (length (pages_of Scenario.talk)))
    by (vm_compute; split; discriminate).
  destruct (external_images_flagged Scenario.disk "talk.md" Scenario.talk 2
              ("# Results" +:+ Scenario.nl
               +:+ "![](http://example.com/x.png)" +:+ Scenario.nl
               +:+ "![again](fig/a.png) ![alt](missing.png)")
              d eq_refl eq_refl Hid eq_refl Hd)
    as (_ & _ & Hext & _).
  apply (Hext {| Re.m_start := 10; Re.m_end := 39;
                 Re.m_groups := [""; "http://example.com/x.png"] |});
    [vm_compute; by left | by left].
Defined.

(** No deduplication: the same reference twice on a page gives the same
    warning twice. *)
Example same_warning_twice :
  inspect_manuscript {[ "twice.md" := File "![a](x.png) ![a](x.png)" ]}
    "twice.md" 1
  = Ret (with_warnings (page_result 1 1 "![a](x.png) ![a](x.png)")
           [file_missing "x.png"; used_n_times "a" "x.png" 2;
            file_missing "x.png"; used_n_times "a" "x.png" 2]).
Proof. vm_compute. reflexivity. Qed.

(** A reference is a match of the image-reference pattern on the page; its
    label is the first group, its path the second. *)
Lemma appended_in_warnings f markdown page m :
  In m (Re.finditer Re.image_reference page) ->
  exists before after,
    page_warnings f markdown page
    = before ++ appended_for f markdown m ++ after.
Proof.
  intros Hm. unfold page_warnings.
  apply in_split in Hm as (l1 & l2 & ->). rewrite flat_map_app. simpl.
  eexists (_ ++ _), _. by rewrite <- app_assoc.
Qed.

(** C5.  On a page that is inspected successfully, for every image
    reference the loop visits, with its label and its path: the page holds
    the text [![label](path)]; what this pass through the loop appends
    stands in the warnings of the result; it holds the missing-file warning
    exactly when the path does not exist on disk, the empty-label warning
    exactly when the label is empty or blank, and the duplication warning
    exactly when the path does not occur exactly once in the whole document.
    So a path that occurs twice in the document gives the duplication
    warning, however often it occurs on the page itself. *)
Theorem local_references_checked (f : gmap string node)
    (md_file markdown : string) (page_id : Z) (page : string)
    (d : gmap string pyval) :
  Fs.read f md_file = Ret markdown ->
  endswith (lower md_file) ".md" = true ->
  1 <= page_id <= Z.of_nat (length (pages_of markdown)) ->
  pages_of markdown !! Z.to_nat (page_id - 1) = Some page ->
  inspect_manuscript f md_file page_id = Ret d ->
  forall m,
    In m (Re.finditer Re.image_reference page) ->
    let label := Re.group m 1 in
    let path := Re.group m 2 in
    (exists pre post,
       page = pre +:+ "![" +:+ label +:+ "](" +:+ path +:+ ")"
              +:+ post
       /\ one_line label = true /\ one_line path = true)
    /\ (exists before after,
          warnings_of d
          = before ++ appended_for f markdown m ++ after)
    /\ (In (file_missing path) (appended_for f markdown m)
        <-> Fs.path_exists f path = Ret false)
    /\ (In (label_missing path) (appended_for f markdown m)
        <-> blank label = true)
    /\ (In (used_n_times label path (count markdown path))
           (appended_for f markdown m)
        <-> count markdown path <> 1%nat)
    /\ (count markdown path = 2%nat ->
        In (used_n_times label path 2) (warnings_of d)).
Proof.
  intros Hr Hmd Hid Hpage Hd.
  destruct (inspected_page f md_file page_id markdown page d
              Hr Hmd Hid Hpage Hd) as [-> _].
  destruct (page_entries page_id (length (pages_of markdown)) page
              (page_warnings f markdown page)) as (_ & _ & Hw).
  rewrite Hw. intros m Hm label path.
  pose proof (appended_in_warnings f markdown page m Hm) as Hblock.
  assert (Hdup : count markdown path <> 1%nat ->
                 In (used_n_times label path (count markdown path))
                   (appended_for f markdown m)).
  { intros Hc. unfold appended_for. fold label. fold path.
    apply Nat.eqb_neq in Hc. rewrite Hc.
    apply in_or_app. right. apply in_or_app. right. by left. }
  split.
  { destruct (ReFacts.image_reference_is_text page m Hm)
      as (pre & post & Hp & _ & Hl & Hpa). by exists pre, post. }
  split; [exact Hblock|]. split; [|split; [|split]].
  - rewrite <- absent_true.
    unfold appended_for. fold label. fold path. split.
    + intros Hin. destruct (absent f path); [done|].
      apply in_app_or in Hin as [[]|Hin].
      apply in_app_or in Hin as [Hin|Hin].
      * destruct (truthy _); [done|]. destruct Hin as [Hin|[]].
        symmetry in Hin. by apply MessageFacts.file_missing_not_label in Hin.
      * destruct (_ =? 1)%nat; [done|]. destruct Hin as [Hin|[]].
        symmetry in Hin. by apply MessageFacts.file_missing_not_used in Hin.
    + intros ->. by left.
  - unfold appended_for. fold label. fold path. split.
    + intros Hin. rewrite PyStrFacts.truthy_strip in Hin.
      destruct (blank label) eqn:Hs; [done|]. simpl in Hin.
      apply in_app_or in Hin as [Hin|Hin].
      * destruct (absent f path); [|done]. destruct Hin as [Hin|[]].
        by apply MessageFacts.file_missing_not_label in Hin.
      * destruct (_ =? 1)%nat; [done|]. destruct Hin as [Hin|[]].
        symmetry in Hin. by apply MessageFacts.label_missing_not_used in Hin.
    + intros Hb. rewrite PyStrFacts.truthy_strip, Hb.
      apply in_or_app. right. by left.
  - split; [|exact Hdup].
    unfold appended_for. fold label. fold path. intros Hin Hc.
    rewrite Hc in Hin. simpl in Hin. rewrite app_nil_r in Hin.
    apply in_app_or in Hin as [Hin|Hin].
    * destruct (absent f path); [|done]. destruct Hin as [Hin|[]].
      by apply MessageFacts.file_missing_not_used in Hin.
    * destruct (truthy _); [done|]. destruct Hin as [Hin|[]].
      by apply MessageFacts.label_missing_not_used in Hin.
  - intros Hc. destruct Hblock as (before & after & ->).
    apply in_or_app. right. apply in_or_app. left.
    rewrite <- Hc. apply Hdup. lia.
Qed.

(** C5, on page 1 of the two-page document of [Scenario]: [fig/a.png]
    occurs once on page 1 and once on page 2. *)
Lemma local_references_checked_witness :
  count ("# Intro" +:+ Scenario.nl +:+ "![chart](fig/a.png)") "fig/a.png"
  = 1%nat
  /\ exists d,
       inspect_manuscript Scenario.disk "talk.md" 1 = Ret d
       /\ In (used_n_times "chart" "fig/a.png" 2) (warnings_of d).
Proof.
  split; [reflexivity|].
  destruct (inspect_manuscript Scenario.disk "talk.md" 1) as [d|e] eqn:Hd;
    [|vm_compute in Hd; discriminate].
  exists d. split; [reflexivity|].
  assert (Hid : 1 <= 1 <= Z.of_nat (length (pages_of Scenario.talk)))
    by (vm_compute; split; discriminate).
  destruct (local_references_checked Scenario.disk "talk.md" Scenario.talk 1
              ("# Intro" +:+ Scenario.nl +:+ "![chart](fig/a.png)")
              d eq_refl eq_refl Hid eq_refl Hd
              {| Re.m_start := 8; Re.m_end := 27;
                 Re.m_groups := ["chart"; "fig/a.png"] |})
    as (_ & _ & _ & _ & _ & Htwice); [vm_compute; by left|].
  apply Htwice. reflexivity.
Defined.

(** X2.  The loop does not tell external references from local ones: on a
    page that is inspected successfully, a reference whose path starts
    with [http://] and names nothing on disk gets both the external-image
    warning and the missing-file warning. *)
Theorem external_reference_checked_locally (f : gmap string node)
    (md_file markdown : string) (page_id : Z) (page : string)
    (m : Re.Match) (d : gmap string pyval) :
  Fs.read f md_file = Ret markdown ->
  endswith (lower md_file) ".md" = true ->
  1 <= page_id <= Z.of_nat (length (pages_of markdown)) ->
  pages_of markdown !! Z.to_nat (page_id - 1) = Some page ->
  In m (Re.finditer Re.image_reference page) ->
  startswith (Re.group m 2) "http://" = true ->
  Fs.path_exists f (Re.group m 2) = Ret false ->
  inspect_manuscript f md_file page_id = Ret d ->
  In external_links_detected (warnings_of d)
  /\ In (file_missing (Re.group m 2)) (warnings_of d).
Proof.
  intros Hr Hmd Hid Hpage Hm Hhttp Hmissing Hd.
  destruct (inspected_page f md_file page_id markdown page d
              Hr Hmd Hid Hpage Hd) as [-> _].
  destruct (page_entries page_id (length (pages_of markdown)) page
              (page_warnings f markdown page)) as (_ & _ & Hw).
  rewrite Hw. split.
  - unfold page_warnings.
    rewrite bool_decide_eq_true_2; [by left|].
    apply (ReFacts.external_reference_found page m Hm). by left.
  - destruct (appended_in_warnings f markdown page m Hm)
      as (before & after & ->).
    apply in_or_app. right. apply in_or_app. left.
    unfold appended_for. rewrite (proj2 (absent_true _ _) Hmissing).
    by left.
Qed.

(** X2, on page 2 of the two-page document of [Scenario]. *)
Lemma external_reference_checked_locally_witness :
  exists d,
    inspect_manuscript Scenario.disk "talk.md" 2 = Ret d
    /\ In external_links_detected (warnings_of d)
    /\ In (file_missing "http://example.com/x.png") (warnings_of d).
Proof.
  destruct (inspect_manuscript Scenario.disk "talk.md" 2) as [d|e] eqn:Hd;
    [|vm_compute in Hd; discriminate].
  exists d. split; [reflexivity|].
  assert (Hid : 1 <= 2 <= Z.of_nat (length (pages_of Scenario.talk)))
    by (vm_compute; split; discriminate).
  apply (external_reference_checked_locally Scenario.disk "talk.md"
           Scenario.talk 2
           ("# Results" +:+ Scenario.nl
            +:+ "![](http://example.com/x.png)" +:+ Scenario.nl
            +:+ "![again](fig/a.png) ![alt](missing.png)")
           {| Re.m_start := 10; Re.m_end := 39;
              Re.m_groups := [""; "http://example.com/x.png"] |}
           d eq_refl eq_refl Hid eq_refl);
    [vm_compute; by left | reflexivity | reflexivity | exact Hd].
Defined.

End ManuscriptSpec.

(** * [download_file] against its specification *)

Module DownloadSpec.
Import PyStr Tools Reading DownloadFacts.

(** After the loop, [download_file] makes no external call. *)
Lemma download_file_trace env url out w f1 :
  mkdir_parent env out (fs w) = (Ret tt, f1) ->
  snd (download_file env url out w)
  = snd (retry_loop env url out (seq 0 (RETRY_TIMES env))
           {| fs := f1; trace := trace w ++ [EvMkdirParent out] |}).
Proof.
  intros Hmk. rewrite (download_file_after_mkdir _ _ _ _ _ Hmk).
  destruct (retry_loop _ _ _ _ _) as [[[]|e] w2]; try reflexivity.
  destruct (endswith_any _ _); [|reflexivity].
  destruct (Fs.read _ _) as [content|e]; [|reflexivity].
  destruct (image_size env content); reflexivity.
Qed.

(** C6.  When making the parent directory raises, no attempt is made, and
    the disk is as the [mkdir] left it.
    Otherwise [download_file] makes [n] attempts, [n] at most
    [RETRY_TIMES]: the calls it makes after the [mkdir] are a sleep of [i]
    seconds and then the GET, for [i] from 0 to [n - 1], and nothing else;
    every attempt but the last made has raised, and an attempt that raises
    is followed by the next one as long as there is one; when every attempt
    raises, all [RETRY_TIMES] attempts are made and the call returns the
    string [Failed to download file from] and the URL; and the call does not
    raise. *)
Theorem download_file_retries (env : Env) (url output_path : string)
    (w : world) :
  (forall e f1,
     mkdir_parent env output_path (fs w) = (Raise e, f1) ->
     download_file env url output_path w
     = (Raise e,
        {| fs := f1; trace := trace w ++ [EvMkdirParent output_path] |}))
  /\ (forall f1,
        mkdir_parent env output_path (fs w) = (Ret tt, f1) ->
        (attempts_made env url output_path <= RETRY_TIMES env)%nat
        /\ trace (snd (download_file env url output_path w))
           = trace w ++ EvMkdirParent output_path
               :: flat_map (fun i => [EvSleep i; EvGet url])
                    (seq 0 (attempts_made env url output_path))
        /\ length (List.filter is_get
                     (flat_map (fun i => [EvSleep i; EvGet url])
                        (seq 0 (attempts_made env url output_path))))
           = attempts_made env url output_path
        /\ (forall i, (S i < attempts_made env url output_path)%nat ->
              completes (http_attempt env i url output_path) = false)
        /\ (forall i,
              (S i < RETRY_TIMES env)%nat ->
              (forall j, (j <= i)%nat ->
                 completes (http_attempt env j url output_path) = false) ->
              (S i < attempts_made env url output_path)%nat)
        /\ ((forall i, (i < RETRY_TIMES env)%nat ->
               completes (http_attempt env i url output_path) = false) ->
            attempts_made env url output_path = RETRY_TIMES env
            /\ fst (download_file env url output_path w)
               = Ret ("Failed to download file from " +:+ url))
        /\ (exists s, fst (download_file env url output_path w) = Ret s)).
Proof.
  split.
  { intros e f1 Hmk.
    unfold download_file, Call.bind, Call.emit, Call.external.
    cbn [fs trace]. by rewrite Hmk. }
  intros f1 Hmk.
  pose proof (count_gets url (seq 0 (attempts_made env url output_path)))
    as Hgets. rewrite length_seq in Hgets.
  assert (Hret : exists s, fst (download_file env url output_path w) = Ret s).
  { rewrite (download_file_after_mkdir _ _ _ _ _ Hmk).
    destruct (retry_loop_returns env url output_path
                (seq 0 (RETRY_TIMES env))
                {| fs := f1; trace := trace w ++ [EvMkdirParent output_path] |})
      as (b & w2 & ->).
    destruct b; [|by eexists].
    destruct (endswith_any _ _); [|by eexists].
    destruct (Fs.read _ _) as [content|e]; [|by eexists].
    destruct (image_size env content); by eexists. }
  rewrite (download_file_trace _ _ _ _ _ Hmk).
  unfold attempts_made in *.
  destruct (List.find _ _) as [i|] eqn:Hfind.
  - apply find_seq in Hfind as (Hi & Hok & Hbefore).
    destruct (http_attempt env i url output_path) as [| |body] eqn:Ha;
      try discriminate.
    destruct (retry_loop_first_success env url output_path i body
                {| fs := f1; trace := trace w ++ [EvMkdirParent output_path] |})
      as [f' Hloop]; [lia | intros j Hj; apply Hbefore; lia | done |].
    rewrite Hloop. cbn [snd trace].
    split; [lia|]. split; [by rewrite <- app_assoc|]. split; [exact Hgets|].
    split; [intros j Hj; apply Hbefore; lia|].
    split.
    + intros j Hj Hall. destruct (decide (i <= j)%nat) as [Hle|]; [|lia].
      specialize (Hall i Hle). rewrite Ha in Hall. discriminate.
    + split; [|exact Hret]. intros Hall. specialize (Hall i (proj2 Hi)).
      rewrite Ha in Hall. discriminate.
  - pose proof (find_seq_none _ _ _ Hfind) as Hall.
    destruct (retry_loop_exhausted env url output_path
                (seq 0 (RETRY_TIMES env))
                {| fs := f1; trace := trace w ++ [EvMkdirParent output_path] |}
                Hall) as [f' Hloop].
    rewrite Hloop. cbn [snd trace].
    split; [lia|]. split; [by rewrite <- app_assoc|]. split; [exact Hgets|].
    split; [intros j Hj; apply Hall, in_seq; lia|].
    split; [intros j Hj _; exact Hj|].
    split; [|exact Hret]. intros _. split; [done|].
    rewrite (download_file_after_mkdir _ _ _ _ _ Hmk). by rewrite Hloop.
Qed.

(** C6, with a network that never answers: three attempts, then the
    failure string. *)
Lemma download_file_retries_witness :
  attempts_made Scenario.offline "http://h/logo.png" "out/logo.png" = 3%nat
  /\ fst (download_file Scenario.offline "http://h/logo.png" "out/logo.png"
            Scenario.start)
     = Ret "Failed to download file from http://h/logo.png".
Proof.
  destruct (proj2 (download_file_retries Scenario.offline
                     "http://h/logo.png" "out/logo.png" Scenario.start)
              Scenario.disk eq_refl)
    as (_ & _ & _ & _ & _ & H & _).
  apply H. intros i _. reflexivity.
Defined.

(** C7.  When an attempt completes and the output path ends, whatever the
    case of its letters, in one of [.png .jpg .jpeg .gif .webp .bmp]: the
    output file holds the body received; if the image library reads a size
    from it, the call returns the success message with that width and
    height; if the image library raises, the call returns the message
    [The provided URL does not point to a valid image file:] with the text
    of the exception, which is not the download-failure string. *)
Theorem image_resolution_reported (env : Env) (url output_path : string)
    (w : world) (f1 : gmap string node) (i : nat) (body : string) :
  mkdir_parent env output_path (fs w) = (Ret tt, f1) ->
  (i < RETRY_TIMES env)%nat ->
  (forall j, (j < i)%nat ->
     completes (http_attempt env j url output_path) = false) ->
  http_attempt env i url output_path = Completes body ->
  endswith_any (lower output_path) image_extensions = true ->
  fs (snd (download_file env url output_path w)) !! output_path
  = Some (File body)
  /\ (forall width height,
        image_size env body = Ret (width, height) ->
        fst (download_file env url output_path w)
        = Ret (("File downloaded to " +:+ output_path)
               +:+ " (resolution: " +:+ of_int width +:+ "x"
               +:+ of_int height +:+ ")"))
  /\ (forall e,
        image_size env body = Raise e ->
        fst (download_file env url output_path w)
        = Ret ("The provided URL does not point to a valid image file: "
               +:+ exn_str e)
        /\ fst (download_file env url output_path w)
           <> Ret (download_failed url)).
Proof.
  intros Hmk Hi Hbefore Hok Hext.
  destruct (retry_loop_first_success env url output_path i body
              {| fs := f1; trace := trace w ++ [EvMkdirParent output_path] |}
              Hi Hbefore Hok) as [f' Hloop].
  rewrite (download_file_after_mkdir _ _ _ _ _ Hmk), Hloop, Hext.
  unfold Fs.read. cbn [fs]. rewrite lookup_insert_eq.
  split; [|split].
  - destruct (image_size env body); cbn [snd fs]; apply lookup_insert_eq.
  - intros width height ->. reflexivity.
  - intros e ->. split; [reflexivity|]. cbn [fst]. intros H.
    apply (MessageFacts.not_an_image_not_failed e url).
    exact (f_equal (fun o => match o with
                             | Ret s => s
                             | Raise _ => EmptyString
                             end) H).
Qed.

(** C7, with the image received at the third attempt. *)
Lemma image_resolution_reported_witness :
  fst (download_file Scenario.fair "http://h/logo.png" "out/Logo.PNG"
         Scenario.start)
  = Ret "File downloaded to out/Logo.PNG (resolution: 640x480)".
Proof.
  destruct (image_resolution_reported Scenario.fair "http://h/logo.png"
              "out/Logo.PNG" Scenario.start Scenario.disk 2 "PNG-640x480"
              eq_refl)
    as (_ & H & _);
    [simpl; lia | intros [|[|j]] Hj; [reflexivity | reflexivity | lia]
    | reflexivity | reflexivity |].
  apply (H 640 480). reflexivity.
Defined.

(** The other side of C7: a body that is no image. *)
Example not_an_image_reported :
  fst (download_file Scenario.not_image "http://h/logo.png" "out/logo.png"
         Scenario.start)
  = Ret "The provided URL does not point to a valid image file: cannot identify image file 'out/logo.png'".
Proof. vm_compute. reflexivity. Qed.

End DownloadSpec.

(** * [markdown_table_to_image] and [inspect_slide] against their
      specification *)

Module RenderSpec.
Import PyStr Tools Reading SlideFacts.

(** C8.  Whatever the table text, the path and the CSS (the empty CSS
    too), [markdown_table_to_image] hands the converted HTML, the path and
    the CSS to the rasterizer as they are, with no check of its own; and
    when the rasterizer returns, the call returns the string
    [Markdown table converted to image and saved to] followed by the path,
    so the message ends with the exact path. *)
Theorem table_image_confirmation (env : Env)
    (markdown_table path css : string) (w : world) :
  trace (snd (markdown_table_to_image env markdown_table path css w))
  = trace w ++ [EvTableImage (markdown_to_html env markdown_table) path css]
  /\ (forall f',
        get_html_table_image env (markdown_to_html env markdown_table)
          path css (fs w) = (Ret tt, f') ->
        fst (markdown_table_to_image env markdown_table path css w)
        = Ret ("Markdown table converted to image and saved to " +:+ path)
        /\ fs (snd (markdown_table_to_image env markdown_table path css w))
           = f')
  /\ endswith ("Markdown table converted to image and saved to " +:+ path)
       path = true.
Proof.
  unfold markdown_table_to_image, Call.bind, Call.emit, Call.external,
    Call.ret. cbn [fs trace].
  split; [|split].
  - by destruct (get_html_table_image _ _ _ _ _) as [[[]|e] f'].
  - intros f' ->. done.
  - apply PyStrFacts.endswith_app.
Qed.

(** C8, with a single-row table and the empty CSS. *)
Lemma table_image_confirmation_witness :
  fst (markdown_table_to_image Scenario.fair "| a | b |" "out/table.png" ""
         Scenario.start)
  = Ret "Markdown table converted to image and saved to out/table.png".
Proof.
  destruct (table_image_confirmation Scenario.fair "| a | b |"
              "out/table.png" "" Scenario.start) as (_ & H & _).
  apply (H (<["out/table.png" := File "PNG"]> Scenario.disk)). reflexivity.
Defined.







(** The other paths of C9, run. *)
Example inspect_slide_refusals :
  inspect_slide Scenario.fair "slide.txt" "widescreen" Scenario.start
  = (Ret (SlideText
            "HTML path /work/slide.txt does not exist or is not an HTML file"),
     Scenario.start)
  /\ inspect_slide Scenario.fair "slide.html" "wide" Scenario.start
     = (Ret (SlideText bad_aspect_ratio), Scenario.start)
  /\ fst (inspect_slide Scenario.silent "slide.html" "A1" Scenario.start)
     = Ret (SlideText no_output)
  /\ fst (inspect_slide Scenario.broken "slide.html" "normal" Scenario.start)
     = Ret (SlideException Scenario.RenderError).
Proof. repeat split; vm_compute; reflexivity. Qed.

End RenderSpec.

(** * The policy on exceptions *)

Module PolicySpec.
Import PyStr Tools Manuscript Reading ManuscriptFacts ManuscriptCases.


(** Two more calls that raise: line 29 of [download_file] and line 124 of
    [inspect_manuscript] stand outside any [try], as do the calls of
    [Path.exists] on lines 88, 118 and 143. *)
Example download_file_raises :
  fst (download_file Scenario.broken "http://h/logo.png" "/srv/out/logo.png"
         Scenario.start)
  = Raise Scenario.PermissionError.
Proof. reflexivity. Qed.

Example inspect_manuscript_raises :
  inspect_manuscript Scenario.disk "notes.md" 1
  = Raise (Fs.IsADirectoryError "notes.md").
Proof. vm_compute. reflexivity. Qed.



End PolicySpec.

(** ** Pieces of a string: [split], [count] and [in] *)

Module PieceFacts.
Import PyStr Reading PyStrFacts.

Lemma take_drop k : forall s, take k s +:+ drop k s = s.
Proof.
  induction k as [|k IH]; intros [|c s]; try done.
  change (String c (take k s +:+ drop k s) = String c s). by rewrite IH.
Qed.

Lemma app_snoc_split a : forall b u c,
  a +:+ b = u +:+ String c EmptyString ->
  b = EmptyString
  \/ exists b0, b = b0 +:+ String c EmptyString /\ u = a +:+ b0.
Proof.
  induction a as [|x a IH]; intros b u c H.
  - right. exists u. by split.
  - destruct u as [|y u].
    + change (String x (a +:+ b) = String c EmptyString) in H.
      injection H as _ H. destruct a; [|discriminate].
      left. exact H.
    + change (String x (a +:+ b) = String y (u +:+ String c EmptyString)) in H.
      injection H as -> H. apply IH in H as [H | (b0 & -> & ->)]; [by left|].
      right. by exists b0.
Qed.

(** Every segment of a split is a piece of the text. *)
Lemma split_go_piece sep s : forall skip cur x,
  In x (split_go sep skip cur s) ->
  contains (rev cur +:+ drop skip s) x.
Proof.
  induction s as [|c s IH]; intros skip cur x Hx.
  - simpl in Hx. destruct Hx as [<- | []].
    exists EmptyString, EmptyString. by destruct skip.
  - destruct skip as [|k]; simpl in Hx.
    + destruct (startswith (String c s) sep).
      * destruct Hx as [<- | Hx].
        -- by exists EmptyString, (String c s).
        -- apply IH in Hx as (a & b & Hab). change (rev EmptyString) with EmptyString in Hab.
           change (EmptyString +:+ drop (len sep - 1) s) with (drop (len sep - 1) s) in Hab.
           exists (rev cur +:+ String c (take (len sep - 1) s) +:+ a), b.
           rewrite !app_assoc_str.
           change (String c (take (len sep - 1) s) +:+ a +:+ x +:+ b)
             with (String c (take (len sep - 1) s +:+ a +:+ x +:+ b)).
           rewrite <- Hab, take_drop. done.
      * apply IH in Hx as (a & b & Hab). exists a, b. rewrite <- Hab.
        rewrite rev_cons, app_assoc_str. done.
    + apply IH in Hx. exact Hx.
Qed.

Lemma split_piece s sep x : In x (split s sep) -> contains s x.
Proof. intros H. by apply split_go_piece in H. Qed.

(** No segment of a split holds the separator. *)
Lemma split_go_no_sep sep n : forall s cur x,
  sep <> EmptyString -> (len s <= n)%nat ->
  (forall a b, rev cur = a +:+ b -> b <> EmptyString ->
               startswith (b +:+ s) sep = false) ->
  In x (split_go sep O cur s) -> ~ contains x sep.
Proof.
  assert (Hend : forall cur s,
            (forall a b, rev cur = a +:+ b -> b <> EmptyString ->
                         startswith (b +:+ s) sep = false) ->
            sep <> EmptyString -> ~ contains (rev cur) sep).
  { intros cur s HP Hsep (a & b & Hab).
    specialize (HP a (sep +:+ b) Hab).
    rewrite app_assoc_str, startswith_app in HP.
    assert (sep +:+ b <> EmptyString) by by destruct sep.
    by specialize (HP ltac:(done)). }
  induction n as [|n IH]; intros s cur x Hsep Hn HP Hx.
  - destruct s; [|simpl in Hn; lia]. simpl in Hx. destruct Hx as [<- | []].
    by eapply Hend.
  - destruct s as [|c s].
    { simpl in Hx. destruct Hx as [<- | []]. by eapply Hend. }
    simpl in Hx. destruct (startswith (String c s) sep) eqn:Hst.
    + destruct Hx as [<- | Hx]; [by eapply Hend|].
      apply startswith_prefix in Hst as [s'' Hs].
      destruct sep as [|c0 sep']; [done|].
      change (String c0 sep' +:+ s'') with (String c0 (sep' +:+ s'')) in Hs.
      injection Hs as -> ->.
      replace (len (String c0 sep') - 1)%nat with (len sep') in Hx
        by (simpl; lia).
      rewrite split_go_skip in Hx.
      apply (IH s'' EmptyString x Hsep); [|intros [|] b Hab Hb|done].
      * simpl in Hn. rewrite len_app in Hn. lia.
      * change (EmptyString = b) in Hab. by subst.
      * discriminate.
    + apply (IH s (String c cur) x Hsep); [simpl in Hn; lia| |done].
      intros a b Hab Hb. rewrite rev_cons in Hab. symmetry in Hab.
      apply app_snoc_split in Hab as [Hab | (b0 & -> & Hrev)].
      * done.
      * rewrite app_assoc_str.
        change (String c EmptyString +:+ s) with (String c s).
        destruct b0 as [|y b0]; [exact Hst|].
        by apply (HP a (String y b0)).
Qed.

Lemma split_no_sep s sep x :
  sep <> EmptyString -> In x (split s sep) -> ~ contains x sep.
Proof.
  intros Hsep Hx. apply (split_go_no_sep sep (len s) s EmptyString x);
    [done | lia | | done].
  intros [|] b Hab Hb; [|discriminate]. change (EmptyString = b) in Hab.
  by subst.
Qed.

(** A text that stands in [s] is counted at least once. *)
Lemma count_go_contains sub a : forall b,
  sub <> EmptyString -> (1 <= count_go sub O (a +:+ sub +:+ b))%nat.
Proof.
  induction a as [|c a IH]; intros b Hsub.
  - change (EmptyString +:+ sub +:+ b) with (sub +:+ b).
    pose proof (startswith_app sub b) as Hst.
    destruct sub as [|c0 sub']; [done|].
    change (String c0 sub' +:+ b) with (String c0 (sub' +:+ b)) in *.
    cbn [count_go]. rewrite Hst. lia.
  - change (String c a +:+ sub +:+ b) with (String c (a +:+ sub +:+ b)).
    cbn [count_go]. destruct (startswith _ _); [lia|]. by apply IH.
Qed.

Lemma count_contains s sub : contains s sub -> (1 <= count s sub)%nat.
Proof.
  intros (a & b & ->). unfold count. destruct sub as [|c sub]; [lia|].
  by apply count_go_contains.
Qed.

Lemma contains_trans s t u : contains s t -> contains t u -> contains s u.
Proof.
  intros (a & b & ->) (a' & b' & ->). exists (a +:+ a'), (b' +:+ b).
  by rewrite !app_assoc_str.
Qed.

Lemma contains_len s t : contains s t -> (len t <= len s)%nat.
Proof. intros (a & b & ->). rewrite !len_app. lia. Qed.


Lemma app_inj_r c : forall a b, a +:+ c = b +:+ c -> a = b.
Proof.
  assert (Hlen : forall a b, a +:+ c = b +:+ c -> len a = len b).
  { intros a b H. apply (f_equal len) in H. rewrite !len_app in H. lia. }
  induction a as [|x a IH]; intros [|y b] H; try done;
    try (apply Hlen in H; simpl in H; lia).
  change (String x (a +:+ c) = String y (b +:+ c)) in H.
  injection H as -> H. f_equal. by apply IH.
Qed.

Lemma has_char_app c a b :
  has_char c (a +:+ b) = has_char c a || has_char c b.
Proof.
  unfold has_char. induction a as [|x a IH]; [done|].
  change (String x a +:+ b) with (String x (a +:+ b)). simpl.
  by rewrite IH, orb_assoc.
Qed.

Lemma has_char_contains c s t :
  contains s t -> has_char c t = true -> has_char c s = true.
Proof.
  intros (a & b & ->) H. rewrite !has_char_app, H. by rewrite orb_true_r.
Qed.

(** A blank text holds no page delimiter: it is its own single segment. *)
Lemma split_go_blank s : forall cur,
  blank s = true ->
  split_go Manuscript.page_delimiter O cur s = [rev cur +:+ s].
Proof.
  unfold blank. induction s as [|c s IH]; intros cur Hb.
  - simpl. by rewrite app_empty_r.
  - simpl in Hb. apply andb_true_iff in Hb as [Hc Hs].
    cbn [split_go].
    assert (Hst : startswith (String c s) Manuscript.page_delimiter = false).
    { unfold Manuscript.page_delimiter. cbn [startswith].
      apply andb_false_iff. right.
      destruct s as [|c' s]; [done|].
      simpl in Hs. apply andb_true_iff in Hs as [Hc' _].
      apply andb_false_iff. left.
      destruct (Ascii.eqb "-" c') eqn:E; [|done].
      apply Ascii.eqb_eq in E as <-. discriminate. }
    rewrite Hst, IH by done. by rewrite rev_cons, app_assoc_str.
Qed.

Lemma pages_of_blank markdown :
  blank markdown = true -> Manuscript.pages_of markdown = [].
Proof.
  intros Hb. unfold Manuscript.pages_of, split.
  rewrite split_go_blank by done. simpl.
  change (rev EmptyString +:+ markdown) with markdown.
  by rewrite truthy_strip, Hb.
Qed.
End PieceFacts.

(** ** What an inspection returns *)

Module PageSpec.
Import PyStr Manuscript Reading PyStrFacts ManuscriptFacts
  ManuscriptCases PieceFacts.

Lemma page_in_pages (l : list string) i page :
  l !! i = Some page -> In page l.
Proof. intros H. apply list_elem_of_In. by eapply list_elem_of_lookup_2. Qed.

Lemma pages_are_segments markdown page :
  In page (pages_of markdown) ->
  In page (split markdown page_delimiter) /\ blank page = false.
Proof.
  unfold pages_of. intros H. apply filter_In in H as [Hin Ht].
  split; [done|]. rewrite truthy_strip in Ht. by destruct (blank page).
Qed.

(** What a returned dictionary holds under [page_content]. *)
Lemma page_content_source f md_file page_id d page :
  inspect_manuscript f md_file page_id = Ret d ->
  d !! "page_content" = Some (VStr page) ->
  exists markdown,
    Fs.read f md_file = Ret markdown /\ In page (pages_of markdown).
Proof.
  intros Hd Hp. pose proof (inspect_manuscript_ending f md_file page_id) as E.
  rewrite Hd in E.
  inversion E as [ | | | | | | | markdown page' Hr Hid Hpage Hf Heq ]; subst;
    try (unfold error in Hp; by rewrite lookup_singleton_ne in Hp).
  rewrite lookup_with_warnings in Hp by done.
  unfold page_result in Hp. rewrite lookup_insert_eq in Hp.
  injection Hp as <-. exists markdown. split; [done|].
  by eapply page_in_pages.
Qed.

(** X4.  The page a successful inspection returns is a piece of the
    document read, is not blank, and holds no page delimiter. *)
Theorem page_content_is_a_page (f : gmap string node) (md_file : string)
    (page_id : Z) (d : gmap string pyval) (page : string) :
  inspect_manuscript f md_file page_id = Ret d ->
  d !! "page_content" = Some (VStr page) ->
  exists markdown,
    Fs.read f md_file = Ret markdown
    /\ contains markdown page
    /\ blank page = false
    /\ ~ contains page page_delimiter.
Proof.
  intros Hd Hp.
  destruct (page_content_source _ _ _ _ _ Hd Hp) as (markdown & Hr & Hin).
  exists markdown. apply pages_are_segments in Hin as [Hin Hb].
  split; [done|]. split; [by apply split_piece in Hin|]. split; [done|].
  by apply split_no_sep in Hin.
Qed.

(** X4, on page 1 of the two-page document of [Scenario]. *)
Lemma page_content_is_a_page_witness :
  exists markdown,
    Fs.read Scenario.disk "talk.md" = Ret markdown
    /\ contains markdown ("# Intro" +:+ Scenario.nl +:+ "![chart](fig/a.png)")
    /\ blank ("# Intro" +:+ Scenario.nl +:+ "![chart](fig/a.png)") = false
    /\ ~ contains ("# Intro" +:+ Scenario.nl +:+ "![chart](fig/a.png)")
          page_delimiter.
Proof.
  apply (page_content_is_a_page Scenario.disk "talk.md" 1
           (with_warnings
              (page_result 1 2
                 ("# Intro" +:+ Scenario.nl +:+ "![chart](fig/a.png)"))
              [used_n_times "chart" "fig/a.png" 2])).
  - vm_compute. reflexivity.
  - vm_compute. reflexivity.
Defined.

(** The test of line 152, read on the warnings of one pass. *)
Lemma used_in_appended f markdown m :
  In (used_n_times (Re.group m 1) (Re.group m 2)
        (count markdown (Re.group m 2)))
    (appended_for f markdown m)
  <-> count markdown (Re.group m 2) <> 1%nat.
Proof.
  unfold appended_for. split.
  - intros Hin Hc. rewrite Hc in Hin. simpl in Hin. rewrite app_nil_r in Hin.
    apply in_app_or in Hin as [Hin|Hin].
    + destruct (absent f _); [|done]. destruct Hin as [Hin|[]].
      by apply MessageFacts.file_missing_not_used in Hin.
    + destruct (truthy _); [done|]. destruct Hin as [Hin|[]].
      by apply MessageFacts.label_missing_not_used in Hin.
  - intros Hc. apply Nat.eqb_neq in Hc. rewrite Hc.
    apply in_or_app. right. apply in_or_app. right. by left.
Qed.

(** The path of a reference found on a page of a document stands in the
    document. *)
Lemma reference_path_in_document markdown page m :
  In page (pages_of markdown) ->
  In m (Re.finditer Re.image_reference page) ->
  contains markdown (Re.group m 2) /\ (5 <= len markdown)%nat.
Proof.
  intros Hpage Hm. apply pages_are_segments in Hpage as [Hpage _].
  apply split_piece in Hpage.
  destruct (ReFacts.image_reference_is_text page m Hm)
    as (pre & post & Hp & _).
  assert (Hpath : contains page (Re.group m 2)).
  { exists (pre +:+ "![" +:+ Re.group m 1 +:+ "]("), (")" +:+ post).
    by rewrite Hp at 1; rewrite !app_assoc_str. }
  split; [by eapply contains_trans|].
  apply contains_len in Hpage. rewrite Hp in Hpage.
  rewrite !len_app in Hpage. simpl in Hpage. lia.
Qed.

(** X5.  On a page that is inspected successfully, the path of every image
    reference occurs at least once in the document, so the count the
    duplication warning reports is never 0: the warning is appended exactly
    when the path occurs twice or more.  An empty path counts as occurring
    once more than the document has characters, and is always warned
    about. *)
Theorem reference_counted_at_least_once (f : gmap string node)
    (md_file markdown : string) (page_id : Z) (page : string)
    (d : gmap string pyval) :
  Fs.read f md_file = Ret markdown ->
  endswith (lower md_file) ".md" = true ->
  1 <= page_id <= Z.of_nat (length (pages_of markdown)) ->
  pages_of markdown !! Z.to_nat (page_id - 1) = Some page ->
  inspect_manuscript f md_file page_id = Ret d ->
  forall m,
    In m (Re.finditer Re.image_reference page) ->
    (1 <= count markdown (Re.group m 2))%nat
    /\ (In (used_n_times (Re.group m 1) (Re.group m 2)
              (count markdown (Re.group m 2)))
          (appended_for f markdown m)
        <-> (2 <= count markdown (Re.group m 2))%nat)
    /\ (Re.group m 2 = EmptyString ->
        count markdown (Re.group m 2) = S (len markdown)
        /\ In (used_n_times (Re.group m 1) EmptyString
                 (S (len markdown)))
              (warnings_of d)).
Proof.
  intros Hr Hmd Hid Hpage Hd m Hm.
  destruct (reference_path_in_document markdown page m
              (page_in_pages _ _ _ Hpage) Hm) as [Hc Hlen].
  apply count_contains in Hc.
  split; [done|]. split.
  - rewrite used_in_appended. lia.
  - intros He. rewrite He in *.
    assert (Hcount : count markdown EmptyString = S (len markdown)) by done.
    split; [done|].
    destruct (inspected_page f md_file page_id markdown page d
                Hr Hmd Hid Hpage Hd) as [-> _].
    rewrite warnings_of_with_warnings by done.
    unfold page_warnings. apply in_or_app. right.
    apply in_flat_map. exists m. split; [done|].
    pose proof (proj2 (used_in_appended f markdown m)) as H.
    rewrite He, Hcount in H. apply H. lia.
Qed.

(** X5, on a document that is one reference with an empty path: six
    characters, so the empty path is counted seven times. *)
Lemma reference_counted_at_least_once_witness :
  exists d,
    inspect_manuscript {[ "e.md" := File "![x]()" ]} "e.md" 1 = Ret d
    /\ In (used_n_times "x" "" 7) (warnings_of d).
Proof.
  assert (Hid : 1 <= 1 <= Z.of_nat (length (pages_of "![x]()")))
    by (vm_compute; split; discriminate).
  assert (Hr : Fs.read {[ "e.md" := File "![x]()" ]} "e.md" = Ret "![x]()")
    by (vm_compute; reflexivity).
  destruct (inspect_manuscript {[ "e.md" := File "![x]()" ]} "e.md" 1)
    as [d|e] eqn:Hd; [|vm_compute in Hd; discriminate].
  exists d. split; [reflexivity|].
  destruct (reference_counted_at_least_once {[ "e.md" := File "![x]()" ]}
              "e.md" "![x]()" 1 "![x]()" d Hr eq_refl Hid eq_refl Hd
              {| Re.m_start := 0; Re.m_end := 6;
                 Re.m_groups := ["x"; ""] |})
    as (_ & _ & H); [vm_compute; by left|].
  exact (proj2 (H eq_refl)).
Defined.

(** A page number above the page count of a document that was read is
    refused, whatever the name of the file. *)
Lemma above_count_refused f md_file page_id markdown :
  Fs.read f md_file = Ret markdown ->
  Z.of_nat (length (pages_of markdown)) < page_id ->
  exists msg, inspect_manuscript f md_file page_id = Ret (error msg).
Proof.
  intros Hr Hn.
  pose proof (inspect_manuscript_ending f md_file page_id) as E.
  pose proof (read_exists _ _ _ Hr) as Hex.
  inversion E as [ e He | | | | e He Hr' | | markdown' page e Hr' Hid
                 | markdown' page Hr' Hid ]; try by eexists.
  - congruence.
  - congruence.
  - rewrite Hr in Hr'. injection Hr' as <-. lia.
  - rewrite Hr in Hr'. injection Hr' as <-. lia.
Qed.

(** X6.  A document that is empty or made of whitespace has no page: every
    page number is refused with an error, page 1 included. *)
Theorem blank_document_has_no_page (f : gmap string node)
    (md_file markdown : string) (page_id : Z) :
  Fs.read f md_file = Ret markdown ->
  blank markdown = true ->
  pages_of markdown = []
  /\ exists msg, inspect_manuscript f md_file page_id = Ret (error msg).
Proof.
  intros Hr Hb. pose proof (pages_of_blank markdown Hb) as Hp.
  split; [done|].
  destruct (Z.lt_ge_cases page_id 1) as [Hlt|Hge].
  - pose proof (inspect_manuscript_ending f md_file page_id) as E.
    pose proof (read_exists _ _ _ Hr) as Hex.
    inversion E as [ e He | | | | e He Hr' | markdown' Hr' Hn
                   | markdown' page e Hr' Hid
                   | markdown' page Hr' Hid ]; try by eexists.
    + congruence.
    + congruence.
    + lia.
    + lia.
  - apply (above_count_refused _ _ _ markdown Hr). rewrite Hp. simpl. lia.
Qed.

(** X7.  A document has at most one page more than it has page delimiters,
    so a page number above that is refused without looking at the
    segments. *)
Theorem pages_bounded_by_delimiters (f : gmap string node)
    (md_file markdown : string) (page_id : Z) :
  Fs.read f md_file = Ret markdown ->
  (length (pages_of markdown) <= S (count markdown page_delimiter))%nat
  /\ (Z.of_nat (S (count markdown page_delimiter)) < page_id ->
      exists msg, inspect_manuscript f md_file page_id = Ret (error msg)).
Proof.
  intros Hr.
  assert (Hlen : (length (pages_of markdown)
                  <= S (count markdown page_delimiter))%nat).
  { rewrite <- length_split by done. unfold pages_of.
    apply List.filter_length_le. }
  split; [done|]. intros Hn. apply (above_count_refused _ _ _ markdown Hr).
  lia.
Qed.

(** X6, on a file of two spaces and a newline. *)
Lemma blank_document_has_no_page_witness :
  exists msg,
    inspect_manuscript
      {[ "w.md" := File ("  " +:+ Scenario.nl) ]} "w.md" 1
    = Ret (error msg).
Proof.
  assert (Hr : Fs.read {[ "w.md" := File ("  " +:+ Scenario.nl) ]} "w.md"
               = Ret ("  " +:+ Scenario.nl))
    by (vm_compute; reflexivity).
  exact (proj2 (blank_document_has_no_page _ "w.md" _ 1 Hr eq_refl)).
Defined.

(** X7, on the two-page document of [Scenario]: one delimiter, so page 3 is
    refused. *)
Lemma pages_bounded_by_delimiters_witness :
  exists msg,
    inspect_manuscript Scenario.disk "talk.md" 3 = Ret (error msg).
Proof.
  apply (proj2 (pages_bounded_by_delimiters Scenario.disk "talk.md"
                  Scenario.talk 3 eq_refl)).
  vm_compute. reflexivity.
Defined.

Lemma finditer_needs_bang page m :
  In m (Re.finditer Re.image_reference page) -> has_char "!" page = true.
Proof.
  intros Hm.
  destruct (ReFacts.image_reference_is_text page m Hm)
    as (pre & post & -> & _).
  rewrite !has_char_app. simpl. by rewrite orb_true_r.
Qed.

Lemma search_needs_bang page :
  is_Some (Re.search Re.external_image page) -> has_char "!" page = true.
Proof.
  intros H. apply ReFacts.external_image_search in H
    as (pre & label & scheme & rest & post & -> & _).
  rewrite !has_char_app. simpl. by rewrite orb_true_r.
Qed.

(** X8.  A page with no exclamation mark holds no image reference: its
    inspection returns the page position and the page text, and no
    warnings key. *)
Theorem page_without_image_syntax (f : gmap string node)
    (md_file markdown : string) (page_id : Z) (page : string) :
  Fs.read f md_file = Ret markdown ->
  endswith (lower md_file) ".md" = true ->
  1 <= page_id <= Z.of_nat (length (pages_of markdown)) ->
  pages_of markdown !! Z.to_nat (page_id - 1) = Some page ->
  has_char "!" page = false ->
  inspect_manuscript f md_file page_id
  = Ret (page_result page_id (length (pages_of markdown)) page)
  /\ page_result page_id (length (pages_of markdown)) page !! "warnings"
     = None.
Proof.
  intros Hr Hmd Hid Hpage Hbang.
  split; [|done].
  rewrite (page_inspected f md_file page_id markdown page Hr Hmd Hid Hpage).
  2: { intros m Hm. apply finditer_needs_bang in Hm. congruence. }
  assert (Hw : page_warnings f markdown page = []).
  { unfold page_warnings.
    rewrite bool_decide_eq_false_2.
    2: { intros H. apply search_needs_bang in H. congruence. }
    destruct (Re.finditer Re.image_reference page) as [|m ms] eqn:E;
      [done|].
    assert (Hm : In m (Re.finditer Re.image_reference page))
      by (rewrite E; by left).
    apply finditer_needs_bang in Hm. congruence. }
  by rewrite Hw.
Qed.

(** X8, on a one-page document of plain text. *)
Lemma page_without_image_syntax_witness :
  inspect_manuscript {[ "p.md" := File "plain text" ]} "p.md" 1
  = Ret (page_result 1 1 "plain text").
Proof.
  assert (Hr : Fs.read {[ "p.md" := File "plain text" ]} "p.md"
               = Ret "plain text") by (vm_compute; reflexivity).
  assert (Hid : 1 <= 1 <= Z.of_nat (length (pages_of "plain text")))
    by (vm_compute; split; discriminate).
  exact (proj1 (page_without_image_syntax _ "p.md" "plain text" 1
                  "plain text" Hr eq_refl Hid eq_refl eq_refl)).
Defined.

Lemma length_appended_for f markdown m :
  (length (appended_for f markdown m) <= 3)%nat.
Proof.
  unfold appended_for. rewrite !length_app.
  destruct (absent _ _), (truthy _), (_ =? 1)%nat; simpl; lia.
Qed.

Lemma length_flat_map_le {A B} (g : A -> list B) (k : nat) (l : list A) :
  (forall x, (length (g x) <= k)%nat) ->
  (length (flat_map g l) <= k * length l)%nat.
Proof.
  intros Hg. induction l as [|x l IH]; simpl; [lia|].
  rewrite length_app. specialize (Hg x). lia.
Qed.

(** X9.  A successful inspection returns at most one warning for the page
    and three for each image reference on it. *)
Theorem warnings_bounded (f : gmap string node)
    (md_file markdown : string) (page_id : Z) (page : string)
    (d : gmap string pyval) :
  Fs.read f md_file = Ret markdown ->
  endswith (lower md_file) ".md" = true ->
  1 <= page_id <= Z.of_nat (length (pages_of markdown)) ->
  pages_of markdown !! Z.to_nat (page_id - 1) = Some page ->
  inspect_manuscript f md_file page_id = Ret d ->
  (length (warnings_of d)
   <= 1 + 3 * length (Re.finditer Re.image_reference page))%nat.
Proof.
  intros Hr Hmd Hid Hpage Hd.
  destruct (inspected_page f md_file page_id markdown page d
              Hr Hmd Hid Hpage Hd) as [-> _].
  rewrite warnings_of_with_warnings by done.
  unfold page_warnings. rewrite length_app.
  pose proof (length_flat_map_le (appended_for f markdown) 3
                (Re.finditer Re.image_reference page)
                (length_appended_for f markdown)).
  destruct (bool_decide _); simpl; lia.
Qed.

(** X9, on page 2 of the two-page document of [Scenario]: three
    references. *)
Lemma warnings_bounded_witness :
  exists d,
    inspect_manuscript Scenario.disk "talk.md" 2 = Ret d
    /\ (length (warnings_of d) <= 10)%nat.
Proof.
  assert (Hid : 1 <= 2 <= Z.of_nat (length (pages_of Scenario.talk)))
    by (vm_compute; split; discriminate).
  destruct (inspect_manuscript Scenario.disk "talk.md" 2) as [d|e] eqn:Hd;
    [|vm_compute in Hd; discriminate].
  exists d. split; [reflexivity|].
  exact (warnings_bounded Scenario.disk "talk.md" Scenario.talk 2
           ("# Results" +:+ Scenario.nl
            +:+ "![](http://example.com/x.png)" +:+ Scenario.nl
            +:+ "![again](fig/a.png) ![alt](missing.png)")
           d eq_refl eq_refl Hid eq_refl Hd).
Defined.

(** X10.  The keys of a returned dictionary are [error] alone, or
    [page_id] and [page_content], or these two and [warnings]: an error
    never comes with a page and a page never with an error. *)
Theorem result_keys (f : gmap string node) (md_file : string) (page_id : Z)
    (d : gmap string pyval) :
  inspect_manuscript f md_file page_id = Ret d ->
  dom d = {[ "error" ]}
  \/ dom d = {[ "page_id"; "page_content" ]}
  \/ dom d = {[ "page_id"; "page_content"; "warnings" ]}.
Proof.
  intros Hd. pose proof (inspect_manuscript_ending f md_file page_id) as E.
  rewrite Hd in E.
  inversion E as [ | | | | | | | markdown page Hr Hid Hpage Hf Heq ]; subst;
    try (left; unfold error; by rewrite dom_singleton_L).
  right. unfold with_warnings, page_result.
  destruct (page_warnings f markdown page).
  - left. rewrite !dom_insert_L, dom_empty_L. set_solver.
  - right. rewrite !dom_insert_L, dom_empty_L. set_solver.
Qed.

(** X10, on page 1 of the two-page document of [Scenario]. *)
Lemma result_keys_witness :
  dom (with_warnings
         (page_result 1 2
            ("# Intro" +:+ Scenario.nl +:+ "![chart](fig/a.png)"))
         [used_n_times "chart" "fig/a.png" 2])
  = {[ "error" ]}
  \/ dom (with_warnings
            (page_result 1 2
               ("# Intro" +:+ Scenario.nl +:+ "![chart](fig/a.png)"))
            [used_n_times "chart" "fig/a.png" 2])
     = {[ "page_id"; "page_content" ]}
  \/ dom (with_warnings
            (page_result 1 2
               ("# Intro" +:+ Scenario.nl +:+ "![chart](fig/a.png)"))
            [used_n_times "chart" "fig/a.png" 2])
     = {[ "page_id"; "page_content"; "warnings" ]}.
Proof.
  apply (result_keys Scenario.disk "talk.md" 1). vm_compute. reflexivity.
Defined.

Lemma file_missing_inj p p' : file_missing p = file_missing p' -> p = p'.
Proof.
  unfold file_missing. intros H. apply String.app_inj in H.
  by apply app_inj_r in H.
Qed.

Lemma label_missing_inj p p' : label_missing p = label_missing p' -> p = p'.
Proof.
  unfold label_missing. intros H. apply String.app_inj in H.
  by apply app_inj_r in H.
Qed.

(** The tests of lines 143 and 148, read on the warnings of one pass. *)
Lemma missing_in_appended f markdown m p :
  In (file_missing p) (appended_for f markdown m)
  <-> Re.group m 2 = p /\ Fs.path_exists f p = Ret false.
Proof.
  unfold appended_for. split.
  - intros Hin. apply in_app_or in Hin as [Hin|Hin].
    + destruct (absent f (Re.group m 2)) eqn:He; [|done].
      destruct Hin as [Hin|[]]. apply file_missing_inj in Hin as <-.
      split; [done|]. by apply absent_true.
    + apply in_app_or in Hin as [Hin|Hin].
      * destruct (truthy _); [done|]. destruct Hin as [Hin|[]].
        symmetry in Hin. by apply MessageFacts.file_missing_not_label in Hin.
      * destruct (_ =? 1)%nat; [done|]. destruct Hin as [Hin|[]].
        symmetry in Hin. by apply MessageFacts.file_missing_not_used in Hin.
  - intros [<- He]. apply absent_true in He. rewrite He. by left.
Qed.

Lemma label_in_appended f markdown m p :
  In (label_missing p) (appended_for f markdown m)
  <-> Re.group m 2 = p /\ blank (Re.group m 1) = true.
Proof.
  unfold appended_for. rewrite truthy_strip. split.
  - intros Hin. apply in_app_or in Hin as [Hin|Hin].
    + destruct (absent f _); [|done]. destruct Hin as [Hin|[]].
      by apply MessageFacts.file_missing_not_label in Hin.
    + apply in_app_or in Hin as [Hin|Hin].
      * destruct (blank (Re.group m 1)); [|done]. destruct Hin as [Hin|[]].
        apply label_missing_inj in Hin as <-. done.
      * destruct (_ =? 1)%nat; [done|]. destruct Hin as [Hin|[]].
        symmetry in Hin. by apply MessageFacts.label_missing_not_used in Hin.
  - intros [<- ->]. apply in_or_app. right. by left.
Qed.

Lemma ending_external : ending external_links_detected = ".s".
Proof. reflexivity. Qed.

Lemma missing_in_page_warnings f markdown page p :
  In (file_missing p) (page_warnings f markdown page)
  <-> exists m,
        In m (Re.finditer Re.image_reference page)
        /\ Re.group m 2 = p /\ Fs.path_exists f p = Ret false.
Proof.
  unfold page_warnings. rewrite in_app_iff, in_flat_map. split.
  - intros [Hin | (m & Hm & Hin)].
    + destruct (bool_decide _); [|done]. destruct Hin as [Hin|[]].
      apply (f_equal ending) in Hin.
      by rewrite ending_external, MessageFacts.ending_file_missing in Hin.
    + exists m. split; [done|]. by apply missing_in_appended in Hin.
  - intros (m & Hm & Hin). right. exists m. split; [done|].
    by apply missing_in_appended.
Qed.

Lemma label_in_page_warnings f markdown page p :
  In (label_missing p) (page_warnings f markdown page)
  <-> exists m,
        In m (Re.finditer Re.image_reference page)
        /\ Re.group m 2 = p /\ blank (Re.group m 1) = true.
Proof.
  unfold page_warnings. rewrite in_app_iff, in_flat_map. split.
  - intros [Hin | (m & Hm & Hin)].
    + destruct (bool_decide _); [|done]. destruct Hin as [Hin|[]].
      apply (f_equal ending) in Hin.
      by rewrite ending_external, MessageFacts.ending_label_missing in Hin.
    + exists m. split; [done|]. by apply label_in_appended in Hin.
  - intros (m & Hm & Hin). right. exists m. split; [done|].
    by apply label_in_appended.
Qed.

(** X14.  The warnings of a result say no more and no less than the page:
    the missing-file warning for a path is among them exactly when a
    reference on the page has this path and nothing exists at it; the
    missing-label warning for a path exactly when a reference on the page
    has this path and a label that is empty or blank. *)
Theorem path_warnings_exact (f : gmap string node)
    (md_file markdown : string) (page_id : Z) (page : string)
    (d : gmap string pyval) :
  Fs.read f md_file = Ret markdown ->
  endswith (lower md_file) ".md" = true ->
  1 <= page_id <= Z.of_nat (length (pages_of markdown)) ->
  pages_of markdown !! Z.to_nat (page_id - 1) = Some page ->
  inspect_manuscript f md_file page_id = Ret d ->
  forall p,
    (In (file_missing p) (warnings_of d)
     <-> exists m,
           In m (Re.finditer Re.image_reference page)
           /\ Re.group m 2 = p /\ Fs.path_exists f p = Ret false)
    /\ (In (label_missing p) (warnings_of d)
        <-> exists m,
              In m (Re.finditer Re.image_reference page)
              /\ Re.group m 2 = p /\ blank (Re.group m 1) = true).
Proof.
  intros Hr Hmd Hid Hpage Hd.
  destruct (inspected_page f md_file page_id markdown page d
              Hr Hmd Hid Hpage Hd) as [-> _].
  rewrite warnings_of_with_warnings by done. intros p.
  split; [apply missing_in_page_warnings | apply label_in_page_warnings].
Qed.

(** X14, on page 2 of the two-page document of [Scenario]: [fig/a.png]
    exists, so it is not reported missing. *)
Lemma path_warnings_exact_witness :
  exists d,
    inspect_manuscript Scenario.disk "talk.md" 2 = Ret d
    /\ ~ In (file_missing "fig/a.png") (warnings_of d).
Proof.
  assert (Hid : 1 <= 2 <= Z.of_nat (length (pages_of Scenario.talk)))
    by (vm_compute; split; discriminate).
  destruct (inspect_manuscript Scenario.disk "talk.md" 2) as [d|e] eqn:Hd;
    [|vm_compute in Hd; discriminate].
  exists d. split; [reflexivity|].
  pose proof (path_warnings_exact Scenario.disk "talk.md" Scenario.talk 2
                ("# Results" +:+ Scenario.nl
                 +:+ "![](http://example.com/x.png)" +:+ Scenario.nl
                 +:+ "![again](fig/a.png) ![alt](missing.png)")
                d eq_refl eq_refl Hid eq_refl Hd "fig/a.png") as [H _].
  intros Hin. apply H in Hin as (m & _ & _ & He).
  vm_compute in He. discriminate.
Defined.

(** No inspection reports as missing a path at which something exists. *)
Lemma existing_path_not_missing f md_file page_id d p :
  inspect_manuscript f md_file page_id = Ret d ->
  Fs.path_exists f p = Ret true ->
  ~ In (file_missing p) (warnings_of d).
Proof.
  intros Hd Hp Hin.
  pose proof (inspect_manuscript_ending f md_file page_id) as E.
  rewrite Hd in E.
  inversion E as [ | | | | | | | markdown page Hr Hid Hpage Hf Heq ]; subst;
    try (unfold warnings_of, error in Hin;
         by rewrite lookup_singleton_ne in Hin).
  rewrite warnings_of_with_warnings in Hin by done.
  apply missing_in_page_warnings in Hin as (m & _ & _ & He). congruence.
Qed.
End PageSpec.

(** ** What a download leaves on disk *)

Module DiskSpec.
Import PyStr Tools Reading DownloadFacts.




(** X13.  When an attempt completes, whatever failed attempts left in the
    output file is replaced: the file holds exactly the body of that
    attempt.  For a path without image extension the body is not decoded:
    the call returns [File downloaded to] and the path, even when the body
    is no image. *)
Theorem completed_download_saves_body (env : Env) (url output_path : string)
    (w : world) (f1 : gmap string node) (i : nat) (body : string) :
  mkdir_parent env output_path (fs w) = (Ret tt, f1) ->
  (i < RETRY_TIMES env)%nat ->
  (forall j, (j < i)%nat ->
     completes (http_attempt env j url output_path) = false) ->
  http_attempt env i url output_path = Completes body ->
  fs (snd (download_file env url output_path w)) !! output_path
  = Some (File body)
  /\ (endswith_any (lower output_path) image_extensions = false ->
      fst (download_file env url output_path w)
      = Ret (downloaded output_path)).
Proof.
  intros Hmk Hi Hbefore Hok.
  destruct (retry_loop_first_success env url output_path i body
              {| fs := f1; trace := trace w ++ [EvMkdirParent output_path] |}
              Hi Hbefore Hok) as [f' Hloop].
  split.
  - rewrite (DownloadSpec.download_file_trace _ _ _ _ _ Hmk), Hloop.
    apply lookup_insert_eq.
  - intros Hext.
    by rewrite (download_file_after_mkdir _ _ _ _ _ Hmk), Hloop, Hext.
Qed.

(** X13, with an error page received at the first attempt and saved as a
    PDF. *)
Lemma completed_download_saves_body_witness :
  fs (snd (download_file Scenario.not_image "http://h/paper.pdf"
             "out/paper.pdf" Scenario.start)) !! "out/paper.pdf"
  = Some (File "<html>404</html>")
  /\ fst (download_file Scenario.not_image "http://h/paper.pdf"
            "out/paper.pdf" Scenario.start)
     = Ret "File downloaded to out/paper.pdf".
Proof.
  destruct (completed_download_saves_body Scenario.not_image
              "http://h/paper.pdf" "out/paper.pdf" Scenario.start
              Scenario.disk 0 "<html>404</html>" eq_refl)
    as [Hfile Hmsg]; [simpl; lia | intros j Hj; lia | reflexivity |].
  split; [exact Hfile | apply Hmsg; reflexivity].
Defined.
End DiskSpec.

(** ** A download, then an inspection *)

Module JourneySpec.
Import PyStr Tools Manuscript Reading DownloadFacts PageSpec.

(** X15.  What [download_file] saved, [inspect_manuscript] finds: after a
    download that completed, no inspection of any manuscript on the disk
    it left reports the output path as a missing image file. *)
Theorem downloaded_file_is_not_missing (env : Env) (url output_path : string)
    (w : world) (f1 : gmap string node) (i : nat) (body : string)
    (md_file : string) (page_id : Z) (d : gmap string pyval) :
  mkdir_parent env output_path (fs w) = (Ret tt, f1) ->
  (i < RETRY_TIMES env)%nat ->
  (forall j, (j < i)%nat ->
     completes (http_attempt env j url output_path) = false) ->
  http_attempt env i url output_path = Completes body ->
  inspect_manuscript (fs (snd (download_file env url output_path w)))
    md_file page_id = Ret d ->
  ~ In (file_missing output_path) (warnings_of d).
Proof.
  intros Hmk Hi Hbefore Hok Hd.
  apply (existing_path_not_missing _ _ _ _ _ Hd).
  destruct (retry_loop_first_success env url output_path i body
              {| fs := f1; trace := trace w ++ [EvMkdirParent output_path] |}
              Hi Hbefore Hok) as [f' Hloop].
  rewrite (DownloadSpec.download_file_trace _ _ _ _ _ Hmk), Hloop.
  unfold Fs.path_exists. cbn [snd fs]. by rewrite lookup_insert_eq.
Qed.

(** X15, with the image of page 2 of [talk.md] that was missing, fetched
    at the third attempt. *)
Lemma downloaded_file_is_not_missing_witness :
  exists d,
    inspect_manuscript
      (fs (snd (download_file Scenario.fair "http://h/m.png" "missing.png"
                  Scenario.start))) "talk.md" 2 = Ret d
    /\ ~ In (file_missing "missing.png") (warnings_of d).
Proof.
  destruct (inspect_manuscript
              (fs (snd (download_file Scenario.fair "http://h/m.png"
                          "missing.png" Scenario.start))) "talk.md" 2)
    as [d|e] eqn:Hd; [|vm_compute in Hd; discriminate].
  exists d. split; [reflexivity|].
  apply (downloaded_file_is_not_missing Scenario.fair "http://h/m.png"
           "missing.png" Scenario.start Scenario.disk 2 "PNG-640x480"
           "talk.md" 2 d eq_refl);
    [simpl; lia | intros [|[|j]] Hj; [reflexivity | reflexivity | lia]
    | reflexivity | exact Hd].
Defined.
End JourneySpec.

(** ** The time a download sleeps *)

Module WaitSpec.
Import PyStr Tools Reading DownloadFacts.

Lemma slept_app a b : slept (a ++ b) = (slept a + slept b)%nat.
Proof.
  induction a as [|[] a IH]; simpl; try done. rewrite IH. lia.
Qed.

Lemma slept_attempts url n : forall a,
  (2 * slept (attempts_events url (seq a n)) = n * (2 * a + n - 1))%nat.
Proof.
  induction n as [|n IH]; intros a; [done|].
  change (attempts_events url (seq a (S n)))
    with (EvSleep a :: EvGet url :: attempts_events url (seq (S a) n)).
  cbn [slept]. specialize (IH (S a)). nia.
Qed.

(** The calls of [download_file] after the [mkdir]. *)
Lemma download_file_events env url out w f1 :
  mkdir_parent env out (fs w) = (Ret tt, f1) ->
  trace (snd (download_file env url out w))
  = trace w ++ EvMkdirParent out
      :: attempts_events url (seq 0 (attempts_made env url out)).
Proof.
  intros Hmk. rewrite (DownloadSpec.download_file_trace _ _ _ _ _ Hmk).
  unfold attempts_made.
  destruct (List.find _ _) as [i|] eqn:Hfind.
  - apply find_seq in Hfind as (Hi & Hok & Hbefore).
    destruct (http_attempt env i url out) as [| |body] eqn:Ha;
      try discriminate.
    destruct (retry_loop_first_success env url out i body
                {| fs := f1; trace := trace w ++ [EvMkdirParent out] |})
      as [f' Hloop]; [lia | intros j Hj; apply Hbefore; lia | done |].
    rewrite Hloop. cbn [snd trace]. by rewrite <- app_assoc.
  - pose proof (find_seq_none _ _ _ Hfind) as Hall.
    destruct (retry_loop_exhausted env url out (seq 0 (RETRY_TIMES env))
                {| fs := f1; trace := trace w ++ [EvMkdirParent out] |}
                Hall) as [f' Hloop].
    rewrite Hloop. cbn [snd trace]. by rewrite <- app_assoc.
Qed.

(** X16.  The time [download_file] spends asleep: with [n] attempts made
    the call has slept [0 + 1 + ... + (n - 1)] seconds, that is
    [n (n - 1) / 2]; so it never sleeps more than
    [RETRY_TIMES (RETRY_TIMES - 1) / 2] seconds, and a download that
    completes at the first attempt has not slept at all. *)
Theorem download_sleeps_triangular (env : Env) (url output_path : string)
    (w : world) (f1 : gmap string node) :
  mkdir_parent env output_path (fs w) = (Ret tt, f1) ->
  exists total : nat,
    slept (trace (snd (download_file env url output_path w)))
    = (slept (trace w) + total)%nat
    /\ (2 * total
        = attempts_made env url output_path
          * (attempts_made env url output_path - 1))%nat
    /\ (2 * total <= RETRY_TIMES env * (RETRY_TIMES env - 1))%nat
    /\ (forall body,
          (0 < RETRY_TIMES env)%nat ->
          http_attempt env 0 url output_path = Completes body ->
          total = 0%nat).
Proof.
  intros Hmk.
  set (n := attempts_made env url output_path).
  exists (slept (attempts_events url (seq 0 n))).
  assert (Hn : (n <= RETRY_TIMES env)%nat).
  { unfold n, attempts_made. destruct (List.find _ _) as [i|] eqn:Hfind;
      [|lia]. apply find_seq in Hfind. lia. }
  pose proof (slept_attempts url n 0) as Htotal.
  split.
  { rewrite (download_file_events _ _ _ _ _ Hmk), slept_app. by cbn [slept]. }
  split; [lia|]. split; [nia|].
  intros body Hpos H0.
  assert (n = 1%nat) as Hn1; [|by rewrite Hn1].
  unfold n, attempts_made.
  destruct (RETRY_TIMES env) as [|r]; [lia|].
  change (seq 0 (S r)) with (0%nat :: seq 1 r). cbn [List.find].
  by rewrite H0.
Qed.

(** X16, with the image received at the third attempt: three seconds. *)
Lemma download_sleeps_triangular_witness :
  slept (trace (snd (download_file Scenario.fair "http://h/logo.png"
                       "out/logo.png" Scenario.start)))
  = 3%nat.
Proof.
  destruct (download_sleeps_triangular Scenario.fair "http://h/logo.png"
              "out/logo.png" Scenario.start Scenario.disk eq_refl)
    as (total & Hs & H & _).
  change (attempts_made Scenario.fair "http://h/logo.png" "out/logo.png")
    with 3%nat in H.
  change (slept (trace Scenario.start)) with 0%nat in Hs.
  rewrite Hs. simpl in H. lia.
Defined.
End WaitSpec.

(** ** The external calls of [inspect_slide] *)

Module CallSpec.
Import PyStr Tools Reading SlideFacts.

Lemma body_events env html ar w :
  exists evs,
    trace (snd (inspect_slide_body env html ar w)) = trace w ++ evs
    /\ (evs = [EvConvertHtml html ar]
        \/ exists pptx f1 t,
             convert_html_to_pptx env html ar (fs w) = (Ret pptx, f1)
             /\ mkdtemp env f1 = Ret t
             /\ evs = [EvConvertHtml html ar; EvTempDir t;
                       EvPptToImages pptx t]).
Proof.
  unfold inspect_slide_body, rmtree, Call.bind, Call.emit, Call.get_fs,
    Call.of_outcome, Call.put_fs, Call.try_finally, Call.external,
    Call.ret.
  cbn [fs trace].
  destruct (convert_html_to_pptx env html ar (fs w)) as [[pptx|e] f1] eqn:Hc;
    cbn [fs trace fst snd]; [|eexists; split; [reflexivity|by left]].
  destruct (mkdtemp env f1) as [t|e] eqn:Ht; cbn [fs trace];
    [|eexists; split; [reflexivity|by left]].
  exists [EvConvertHtml html ar; EvTempDir t; EvPptToImages pptx t].
  split; [|right; by eexists _, _, _].
  destruct (ppt_to_images env pptx t _) as [[[]|e] f2];
    cbn [fs trace fst snd]; [|by rewrite <- !app_assoc].
  destruct (Fs.path_exists f2 _) as [[|]|e]; cbn [negb fs trace snd];
    [|by rewrite <- !app_assoc|by rewrite <- !app_assoc].
  destruct (Fs.read f2 _); cbn [fs trace snd]; by rewrite <- !app_assoc.
Qed.

(** X17.  The external calls of [inspect_slide], in the order made: none
    when the path or the aspect ratio is not accepted, and only then; else
    the converter alone, or the converter, the temporary directory and the
    rasterizer.  So the converter runs at most once, and only on an
    existing path of suffix [.html] with one of the three aspect ratios;
    the rasterizer runs at most once, and only on the deck the converter
    returned and the directory just made. *)
Theorem inspect_slide_calls (env : Env) (html_file aspect_ratio : string)
    (w : world) :
  exists evs,
    trace (snd (inspect_slide env html_file aspect_ratio w)) = trace w ++ evs
    /\ (evs = []
        <-> html_path_ok (fs w) (absolute env html_file) = false
            \/ str_in aspect_ratio aspect_ratios = false)
    /\ (evs = []
        \/ evs = [EvConvertHtml (absolute env html_file) aspect_ratio]
        \/ exists pptx f1 t,
             convert_html_to_pptx env (absolute env html_file) aspect_ratio
               (fs w) = (Ret pptx, f1)
             /\ mkdtemp env f1 = Ret t
             /\ evs = [EvConvertHtml (absolute env html_file) aspect_ratio;
                       EvTempDir t; EvPptToImages pptx t])
    /\ (forall h a,
          In (EvConvertHtml h a) evs ->
          h = absolute env html_file
          /\ Fs.path_exists (fs w) h = Ret true
          /\ Fs.suffix h = ".html"
          /\ (a = "widescreen" \/ a = "normal" \/ a = "A1")).
Proof.
  destruct (html_path_ok (fs w) (absolute env html_file)) eqn:Hok.
  - destruct (str_in aspect_ratio aspect_ratios) eqn:Hr.
    + rewrite (inspect_slide_checked _ _ _ _ Hok Hr).
      destruct (body_events env (absolute env html_file) aspect_ratio w)
        as (evs & Htr & Hshape).
      exists evs. split.
      { by destruct (inspect_slide_body _ _ _ _) as [[v|e] w']. }
      assert (Hne : evs <> []).
      { destruct Hshape as [->|(? & ? & ? & _ & _ & ->)]; discriminate. }
      split; [split; [done|intros [|]; discriminate]|].
      split; [by right|].
      intros h a Hin.
      assert (h = absolute env html_file /\ a = aspect_ratio) as [-> ->].
      { destruct Hshape as [->|(? & ? & ? & _ & _ & ->)]; simpl in Hin;
          repeat (destruct Hin as [Hin|Hin]; try discriminate; try done);
          by injection Hin as <- <-. }
      apply html_path_ok_true in Hok as [He Hs].
      split; [done|]. split; [done|]. split; [done|].
      unfold str_in, aspect_ratios in Hr. simpl in Hr.
      rewrite orb_false_r, !orb_true_iff, !String.eqb_eq in Hr. tauto.
    + rewrite (inspect_slide_bad_ratio _ _ _ _ Hok Hr). exists [].
      split; [by rewrite app_nil_r|]. split; [split; auto|].
      split; [by left|]. intros h a [].
  - exists []. split.
    { unfold html_path_ok in Hok.
      destruct (Fs.path_exists (fs w) (absolute env html_file))
        as [found|e] eqn:He.
      - rewrite (inspect_slide_not_html _ _ _ _ _ He Hok).
        by rewrite app_nil_r.
      - rewrite (inspect_slide_unanswered _ _ _ _ _ He).
        by rewrite app_nil_r. }
    split; [split; auto|].
    split; [by left|]. intros h a [].
Qed.

End CallSpec.
